(** * Poker Coach: equity-and-decision pipeline

    A shallow embedding of the Python sources (card model, game state,
    odds calculator, pre-flop ranges, Monte Carlo simulator and decision
    engine) together with the properties stated about them.

    Modelling conventions
    - Python [float] values (chip amounts, equities, thresholds) are
      modelled by exact rationals [Q]; decimal literals such as [1.15]
      denote the corresponding decimal fraction.  Comparisons are the
      boolean comparisons of [Q].
    - Python [int] values are [Z].
    - Python [str] values are [string]; the model covers ASCII text,
      which is all the engine itself ever builds from [Card] objects.
    - A raised exception is an [Err] result; the random source of the
      simulator is threaded explicitly through a small state-and-error
      monad.
    - The [treys] evaluator and the [random.Random] generator are
      external to the repository and enter as interfaces (type classes). *)

From Stdlib Require Import QArith Qminmax ZArith Lia Lqa Ascii String.
From stdpp Require Import base decidable list strings gmap.

Open Scope Z_scope.

(* ===================================================================== *)
(** * Python prelude: exceptions, min/max, string helpers                 *)
(* ===================================================================== *)

Module Py.

(** The two exception classes raised by the sources. *)
Inductive exn :=
| ValueError (msg : string)
| TypeError (msg : string).

Inductive result (A : Type) :=
| Ok (a : A)
| Err (e : exn).
Arguments Ok {A} a.
Arguments Err {A} e.

Definition is_ok {A} (r : result A) : bool :=
  match r with Ok _ => true | Err _ => false end.

Definition is_value_error {A} (r : result A) : bool :=
  match r with Err (ValueError _) => true | _ => false end.

Definition rbind {A B} (r : result A) (k : A -> result B) : result B :=
  match r with
  | Ok a => k a
  | Err e => Err e
  end.

(** [a < b], [a <= b] and [a == b] on floats. *)
Definition Qltb (a b : Q) : bool := negb (Qle_bool b a).
Definition Qleb (a b : Q) : bool := Qle_bool a b.
Definition Qeqb (a b : Q) : bool := Qeq_bool a b.

(** [max(a, b)]: the first argument unless the second is strictly
    larger; [min(a, b)]: the first unless the second is strictly
    smaller. *)
Definition pymax (a b : Q) : Q := if Qltb a b then b else a.
Definition pymin (a b : Q) : Q := if Qltb b a then b else a.

(** [min(xs)] on a non-empty list given as head and tail. *)
Definition pymin_list (x : Q) (xs : list Q) : Q := fold_left pymin xs x.

Definition zmax (a b : Z) : Z := if Z.ltb a b then b else a.

(** ASCII views of [str.strip], [str.upper] and [str.lower]. *)
Definition is_py_space (c : ascii) : bool :=
  let n := nat_of_ascii c in
  ((9 <=? n)%nat && (n <=? 13)%nat) || ((28 <=? n)%nat && (n <=? 32)%nat).

Fixpoint lstrip (s : string) : string :=
  match s with
  | String c s' => if is_py_space c then lstrip s' else s
  | EmptyString => EmptyString
  end.

Definition strip (s : string) : string :=
  String.rev (lstrip (String.rev (lstrip s))).

Definition upper_ascii (c : ascii) : ascii :=
  let n := nat_of_ascii c in
  if ((97 <=? n)%nat && (n <=? 122)%nat) then ascii_of_nat (n - 32) else c.

Definition lower_ascii (c : ascii) : ascii :=
  let n := nat_of_ascii c in
  if ((65 <=? n)%nat && (n <=? 90)%nat) then ascii_of_nat (n + 32) else c.

Fixpoint smap (f : ascii -> ascii) (s : string) : string :=
  match s with
  | EmptyString => EmptyString
  | String c s' => String (f c) (smap f s')
  end.

Definition upper : string -> string := smap upper_ascii.
Definition lower : string -> string := smap lower_ascii.

(** [s[:-1]] and [s[-1]] for a string of length at least one. *)
Fixpoint init_last (s : string) : option (string * ascii) :=
  match s with
  | EmptyString => None
  | String c s' =>
      match init_last s' with
      | None => Some (EmptyString, c)
      | Some (i, l) => Some (String c i, l)
      end
  end.

(** [int(s)] for plain decimal numerals: an optional sign followed by
    groups of ASCII digits separated by single underscores. *)
Definition digit_of (c : ascii) : option Z :=
  let n := nat_of_ascii c in
  if ((48 <=? n)%nat && (n <=? 57)%nat) then Some (Z.of_nat (n - 48)) else None.

Fixpoint int_digits (s : string) (acc : Z) (after_digit : bool) : option Z :=
  match s with
  | EmptyString => if after_digit then Some acc else None
  | String c s' =>
      match digit_of c with
      | Some d => int_digits s' (10 * acc + d) true
      | None =>
          if (Ascii.eqb c "_"%char && after_digit)%bool
          then match s' with
               | EmptyString => None
               | String c' _ =>
                   match digit_of c' with
                   | Some _ => int_digits s' acc false
                   | None => None
                   end
               end
          else None
      end
  end.

Definition int (s : string) : option Z :=
  match s with
  | String "+"%char s' => int_digits s' 0 false
  | String "-"%char s' => option_map Z.opp (int_digits s' 0 false)
  | _ => int_digits s 0 false
  end.

End Py.
Export Py.

(* ===================================================================== *)
(** * Card model ([card.py])                                              *)
(* ===================================================================== *)

Module CardModel.

Inductive Suit := SPADES | HEARTS | DIAMONDS | CLUBS.

Inductive Rank :=
| TWO | THREE | FOUR | FIVE | SIX | SEVEN | EIGHT | NINE | TEN
| JACK | QUEEN | KING | ACE.

#[global] Instance Suit_eq_dec : EqDecision Suit.
Proof. solve_decision. Defined.

#[global] Instance Rank_eq_dec : EqDecision Rank.
Proof. solve_decision. Defined.

(** Iteration order of the two enumerations. *)
Definition all_suits : list Suit := [SPADES; HEARTS; DIAMONDS; CLUBS].

Definition all_ranks : list Rank :=
  [TWO; THREE; FOUR; FIVE; SIX; SEVEN; EIGHT; NINE; TEN; JACK; QUEEN; KING; ACE].

(** The [IntEnum] value of a rank. *)
Definition rank_value (r : Rank) : Z :=
  match r with
  | TWO => 2 | THREE => 3 | FOUR => 4 | FIVE => 5 | SIX => 6 | SEVEN => 7
  | EIGHT => 8 | NINE => 9 | TEN => 10 | JACK => 11 | QUEEN => 12
  | KING => 13 | ACE => 14
  end.

(** [Rank(numeric)]. *)
Definition rank_of_value (n : Z) : option Rank :=
  List.find (fun r => rank_value r =? n) all_ranks.

Definition suit_symbol (s : Suit) : string :=
  match s with
  | SPADES => "♠" | HEARTS => "♥" | DIAMONDS => "♦" | CLUBS => "♣"
  end.

(** [_SUIT_SHORT_NAMES] and [_RANK_DISPLAY]. *)
Definition suit_short_name (s : Suit) : string :=
  match s with
  | SPADES => "s" | HEARTS => "h" | DIAMONDS => "d" | CLUBS => "c"
  end.

Definition rank_short_name (r : Rank) : string :=
  match r with
  | TWO => "2" | THREE => "3" | FOUR => "4" | FIVE => "5" | SIX => "6"
  | SEVEN => "7" | EIGHT => "8" | NINE => "9" | TEN => "T" | JACK => "J"
  | QUEEN => "Q" | KING => "K" | ACE => "A"
  end.

Record Card := mkCard { rank : Rank; suit : Suit }.

#[global] Instance Card_eq_dec : EqDecision Card.
Proof. solve_decision. Defined.

(** [Card.__str__]. *)
Definition Card_str (c : Card) : string :=
  rank_short_name (rank c) +:+ suit_short_name (suit c).

(** [Suit.from_string]. *)
Definition Suit_from_string (value : string) : result Suit :=
  let normalized := lower (strip value) in
  if String.eqb normalized "" then Err (ValueError "Suit string cannot be empty.")
  else
    match List.find (fun s => String.eqb normalized (lower (suit_symbol s))
                              || String.eqb normalized (suit_short_name s))
                    all_suits with
    | Some s => Ok s
    | None => Err (ValueError "Invalid suit string")
    end.

(** [Rank.from_string]. *)
Definition Rank_from_string (value : string) : result Rank :=
  let normalized := upper (strip value) in
  if String.eqb normalized "" then Err (ValueError "Rank string cannot be empty.")
  else
    match List.find (fun r => String.eqb (rank_short_name r) normalized) all_ranks with
    | Some r => Ok r
    | None =>
        match int normalized with
        | None => Err (ValueError "Invalid rank string")
        | Some numeric =>
            match rank_of_value numeric with
            | Some r => Ok r
            | None => Err (ValueError "Rank value out of bounds")
            end
        end
    end.

(** [Card.from_string]. *)
Definition Card_from_string (card_str : string) : result Card :=
  if String.eqb card_str "" then Err (ValueError "Card string cannot be empty.")
  else
    let stripped := strip card_str in
    if (String.length stripped <? 2)%nat then Err (ValueError "Invalid card string")
    else
      match init_last stripped with
      | None => Err (ValueError "Invalid card string")
      | Some (rank_part, suit_part) =>
          rbind (Rank_from_string rank_part) (fun r =>
          rbind (Suit_from_string (String suit_part EmptyString)) (fun s =>
          Ok (mkCard r s)))
      end.

(** The 52 cards in the order [for rank in Rank for suit in Suit]. *)
Definition full_deck : list Card :=
  flat_map (fun r => map (fun s => mkCard r s) all_suits) all_ranks.

End CardModel.
Export CardModel.

(* ===================================================================== *)
(** * Game state ([game_state.py])                                        *)
(* ===================================================================== *)

Module GameStateModel.

Inductive Position := UTG | MP | CO | BTN | SB | BB.

Inductive Street := PREFLOP | FLOP | TURN | RIVER.

#[global] Instance Position_eq_dec : EqDecision Position.
Proof. solve_decision. Defined.

#[global] Instance Street_eq_dec : EqDecision Street.
Proof. solve_decision. Defined.

Definition all_positions : list Position := [UTG; MP; CO; BTN; SB; BB].

(** [Position.value]. *)
Definition position_value (p : Position) : string :=
  match p with
  | UTG => "Under the Gun" | MP => "Middle Position" | CO => "Cutoff"
  | BTN => "Button" | SB => "Small Blind" | BB => "Big Blind"
  end.

Record GameState := mkGameState {
  hole_cards : list Card;
  board : list Card;
  street : Street;
  pot_size : Q;
  bet_to_call : Q;
  your_stack : Q;
  opponent_stacks : list Q;
  your_position : Position;
  num_opponents : Z;
  active_opponents : Z;
  preflop_action : list string
}.

(** [_validate_cards]: only the length bound can fail on typed lists. *)
Definition validate_cards (cards : list Card) (max_allowed : nat) (label : string)
  : result unit :=
  if (max_allowed <? length cards)%nat
  then Err (ValueError ("Too many " +:+ label))
  else Ok tt.

(** [len(set(combined))] for cards compared by rank and suit. *)
Definition distinct_count (cards : list Card) : nat :=
  length (remove_dups cards).

Definition validate_no_duplicates (gs : GameState) : result unit :=
  let combined := hole_cards gs ++ board gs in
  if negb (length combined =? distinct_count combined)%nat
  then Err (ValueError "Duplicate cards detected between hole cards and board.")
  else Ok tt.

Definition validate_numeric_fields (gs : GameState) : result unit :=
  if existsb (fun v => Qltb v 0) [pot_size gs; bet_to_call gs; your_stack gs]
  then Err (ValueError "numeric field must be non-negative")
  else if existsb (fun v => Qltb v 0) (opponent_stacks gs)
  then Err (ValueError "Opponent stack must be non-negative")
  else if num_opponents gs <? 0
  then Err (ValueError "num_opponents must be non-negative.")
  else if active_opponents gs <? 0
  then Err (ValueError "active_opponents must be non-negative.")
  else if num_opponents gs <? active_opponents gs
  then Err (ValueError "active_opponents cannot exceed num_opponents.")
  else Ok tt.

(** [__post_init__]; the type checks of [_validate_actions] and of the
    card lists hold by typing. *)
Definition post_init (gs : GameState) : result unit :=
  rbind (validate_cards (hole_cards gs) 2 "hole cards") (fun _ =>
  rbind (validate_cards (board gs) 5 "board cards") (fun _ =>
  rbind (validate_no_duplicates gs) (fun _ =>
  validate_numeric_fields gs))).

(** A state that its constructor accepts. *)
Definition valid_state (gs : GameState) : Prop := post_init gs = Ok tt.

(** What the constructor of [GameState] guarantees. *)
Record state_facts (gs : GameState) : Prop := {
  hole_le : (length (hole_cards gs) <= 2)%nat;
  board_le : (length (board gs) <= 5)%nat;
  cards_nodup : NoDup (hole_cards gs ++ board gs);
  pot_nonneg : (0 <= pot_size gs)%Q;
  bet_nonneg : (0 <= bet_to_call gs)%Q;
  stack_nonneg : (0 <= your_stack gs)%Q;
  opp_nonneg : Forall (fun v => (0 <= v)%Q) (opponent_stacks gs);
  active_nonneg : 0 <= active_opponents gs;
  active_le : active_opponents gs <= num_opponents gs
}.

(** [GameState.pot_odds]. *)
Definition pot_odds (gs : GameState) : Q :=
  if Qleb (bet_to_call gs) 0 then 0%Q
  else
    let total := (pot_size gs + bet_to_call gs)%Q in
    if Qleb total 0 then 0%Q
    else (bet_to_call gs / total)%Q.

(** [GameState.effective_stack]: the list is never empty. *)
Definition effective_stack (gs : GameState) : Q :=
  pymin_list (your_stack gs) (opponent_stacks gs).

End GameStateModel.
Export GameStateModel.

(* ===================================================================== *)
(** * Odds calculator ([odds_calculator.py])                              *)
(* ===================================================================== *)

Module OddsCalculator.

(** [calculate_pot_odds]. *)
Definition calculate_pot_odds (gs : GameState) : result Q :=
  let bet := pymax (bet_to_call gs) 0 in
  if Qeqb bet 0 then Ok 0%Q
  else
    let pot := pymax (pot_size gs) 0 in
    let denominator := (pot + bet)%Q in
    if Qleb denominator 0
    then Err (ValueError "Total pot must be positive when bet_to_call is > 0.")
    else Ok (bet / denominator)%Q.

(** [calculate_implied_odds]. *)
Definition calculate_implied_odds (gs : GameState) (future_bets : Q) : result Q :=
  if Qltb future_bets 0 then Err (ValueError "future_bets cannot be negative.")
  else
    let bet := pymax (bet_to_call gs) 0 in
    if Qeqb bet 0 then Ok 0%Q
    else
      let pot := pymax (pot_size gs) 0 in
      let denominator := (pot + future_bets + bet)%Q in
      if Qleb denominator 0
      then Err (ValueError "Total pot plus future bets must be positive.")
      else Ok (bet / denominator)%Q.



(** [outs_to_percentage]. *)
Definition outs_to_percentage (outs cards_to_come : Z) : result Q :=
  if outs <? 0 then Err (ValueError "outs cannot be negative.")
  else if negb ((cards_to_come =? 1) || (cards_to_come =? 2))
  then Err (ValueError "cards_to_come must be 1 or 2 for the rule of 2 and 4.")
  else
    let multiplier := if cards_to_come =? 1 then 0.02%Q else 0.04%Q in
    Ok (inject_Z outs * multiplier)%Q.

End OddsCalculator.

(* ===================================================================== *)
(** * Pre-flop ranges ([ranges.py])                                       *)
(* ===================================================================== *)

Module PreflopRanges.

Definition _UTG_OPENING : gset string :=
  list_to_set ["AA"; "KK"; "QQ"; "JJ"; "TT"; "99"; "AKs"; "AQs"; "AJs"; "ATs";
               "AKo"; "AQo"; "KQs"].

Definition _MP_ADDITIONS : gset string :=
  list_to_set ["88"; "77"; "A9s"; "A8s"; "AJo"; "KJs"; "KTs"; "QJs"].

Definition _CO_ADDITIONS : gset string :=
  list_to_set ["66"; "55"; "ATo"; "KQo"; "QTs"; "JTs"; "T9s"; "A7s"; "A6s";
               "A5s"; "A4s"; "A3s"; "A2s"].

Definition _ALL_PAIRS : gset string :=
  list_to_set ["AA"; "KK"; "QQ"; "JJ"; "TT"; "99"; "88"; "77"; "66"; "55";
               "44"; "33"; "22"].

Definition _BROADWAY_SUITS : gset string :=
  list_to_set ["AKs"; "AQs"; "AJs"; "ATs"; "KQs"; "KJs"; "QJs"; "JTs"; "KTs";
               "QTs"; "J9s"; "T9s"; "98s"; "87s"; "76s"; "65s"; "54s"].

Definition _BROADWAY_OFFSUIT : gset string :=
  list_to_set ["AKo"; "AQo"; "AJo"; "ATo"; "KQo"; "KJo"; "QJo"; "JTo"].

Definition _SUITED_ACES : gset string :=
  list_to_set ["A9s"; "A8s"; "A7s"; "A6s"; "A5s"; "A4s"; "A3s"; "A2s"].

Definition _SB_EXTRA : gset string :=
  list_to_set ["KTo"; "QTo"; "JTo"; "T9o"; "98o"; "A9o"; "A8o"; "K9s"; "Q9s";
               "J8s"; "T8s"; "97s"; "86s"; "75s"].

Definition _BB_EXTRA : gset string :=
  list_to_set ["A7o"; "A6o"; "A5o"; "A4o"; "A3o"; "A2o"; "K9o"; "Q9o"; "J9o";
               "T8o"; "97o"; "86o"; "76o"; "65o"].

(** [_normalize_combo_literal]. *)
Definition _normalize_combo_literal (hand : string) : result string :=
  let cleaned := strip hand in
  match cleaned with
  | String a (String b EmptyString) => Ok (upper cleaned)
  | String a (String b (String c EmptyString)) =>
      Ok (upper (String a (String b EmptyString)) +:+ lower (String c EmptyString))
  | _ => Err (ValueError "Invalid combo representation")
  end.

(** [_freeze]: the canonical form of every member; a member that does
    not normalise aborts the construction of the table. *)
Definition _freeze (values : gset string) : result (gset string) :=
  foldr (fun value acc =>
           rbind (_normalize_combo_literal value) (fun n =>
           rbind acc (fun s => Ok ({[ n ]} ∪ s))))
        (Ok ∅) (elements values).

(** [PreflopRanges.OPENING_RANGES], as evaluated when the module is
    loaded. *)
Definition OPENING_RANGES (p : Position) : result (gset string) :=
  match p with
  | UTG => Ok _UTG_OPENING
  | MP => _freeze (_UTG_OPENING ∪ _MP_ADDITIONS)
  | CO => _freeze (_UTG_OPENING ∪ _MP_ADDITIONS ∪ _CO_ADDITIONS)
  | BTN => _freeze (_ALL_PAIRS ∪ _BROADWAY_SUITS ∪ _BROADWAY_OFFSUIT ∪ _SUITED_ACES)
  | SB => _freeze (_ALL_PAIRS ∪ _BROADWAY_SUITS ∪ _BROADWAY_OFFSUIT ∪ _SUITED_ACES
                   ∪ _SB_EXTRA)
  | BB => _freeze (_ALL_PAIRS ∪ _BROADWAY_SUITS ∪ _BROADWAY_OFFSUIT ∪ _SUITED_ACES
                   ∪ _SB_EXTRA ∪ _BB_EXTRA)
  end.

(** [PreflopRanges.THREE_BET_RANGES]. *)
Definition THREE_BET_RANGES (p : Position) : result (gset string) :=
  match p with
  | UTG => _freeze (list_to_set ["AA"; "KK"; "QQ"; "AKs"; "AKo"])
  | MP => _freeze (list_to_set ["AA"; "KK"; "QQ"; "JJ"; "AKs"; "AQs"; "AKo"])
  | CO => _freeze (list_to_set ["AA"; "KK"; "QQ"; "JJ"; "TT"; "AKs"; "AQs"; "AKo"])
  | BTN => _freeze (list_to_set ["AA"; "KK"; "QQ"; "JJ"; "TT"; "99"; "AKs"; "AQs";
                                 "A5s"; "KQs"; "AKo"])
  | SB => _freeze (list_to_set ["AA"; "KK"; "QQ"; "JJ"; "TT"; "AKs"; "AQs"; "AKo";
                                "A5s"; "KQs"])
  | BB => _freeze (list_to_set ["AA"; "KK"; "QQ"; "JJ"; "TT"; "AKs"; "AQs"; "AKo";
                                "A5s"; "KQs"])
  end.

(** [sorted((card1, card2), key=lambda c: c.rank, reverse=True)]: a
    stable descending sort of two elements. *)
Definition sorted_desc_by_rank (card1 card2 : Card) : Card * Card :=
  if rank_value (rank card1) <? rank_value (rank card2)
  then (card2, card1)
  else (card1, card2).

(** [PreflopRanges.normalize_hand]. *)
Definition normalize_hand (card1_str card2_str : string) : result string :=
  rbind (Card_from_string card1_str) (fun card1 =>
  rbind (Card_from_string card2_str) (fun card2 =>
    let rank1 := upper (rank_short_name (rank card1)) in
    let rank2 := upper (rank_short_name (rank card2)) in
    if String.eqb rank1 rank2 then Ok (rank1 +:+ rank2)
    else
      let '(high, low) := sorted_desc_by_rank card1 card2 in
      let suffix := if bool_decide (suit high = suit low) then "s" else "o" in
      Ok (upper (rank_short_name (rank high)) +:+ upper (rank_short_name (rank low))
          +:+ suffix))).

(** [PreflopRanges.should_open]; every [Position] is a key of the
    table, so the unknown-position branch cannot be taken. *)
Definition should_open (hand : string) (position : Position) : result bool :=
  rbind (OPENING_RANGES position) (fun range =>
  rbind (_normalize_combo_literal hand) (fun normalized =>
  Ok (bool_decide (normalized ∈ range)))).

(** [PreflopRanges.should_3bet]. *)
Definition should_3bet (hand : string) (position : Position) : result bool :=
  rbind (THREE_BET_RANGES position) (fun range =>
  rbind (_normalize_combo_literal hand) (fun normalized =>
  Ok (bool_decide (normalized ∈ range)))).

(** The combo label in the words of the specification: higher rank
    first, no suffix for a pair, otherwise "s" for equal suits and "o"
    for different suits. *)
Definition canonical_label (c1 c2 : Card) : string :=
  let hi := if rank_value (rank c1) <? rank_value (rank c2) then c2 else c1 in
  let lo := if rank_value (rank c1) <? rank_value (rank c2) then c1 else c2 in
  if bool_decide (rank c1 = rank c2)
  then rank_short_name (rank c1) +:+ rank_short_name (rank c2)
  else rank_short_name (rank hi) +:+ rank_short_name (rank lo)
       +:+ (if bool_decide (suit c1 = suit c2) then "s" else "o").

End PreflopRanges.

(* ===================================================================== *)
(** * External interfaces                                                 *)
(* ===================================================================== *)

(** The [treys] evaluator: [evaluate(board, hole)] returns an integer
    rank, lower meaning stronger.  The simulator only ever calls it with
    a completed five-card board and two hole cards. *)
Class HandRankOracle := { treys_evaluate : list Card -> list Card -> Z }.

(** The injected [random.Random]: [shuffle] permutes a list in place and
    advances the generator. *)
Class RandomSource := {
  rng_state : Type;
  rng_shuffle : list Card -> rng_state -> list Card * rng_state
}.

(** What [random.shuffle] guarantees: the result is a rearrangement of
    its argument. *)
Class LawfulShuffle (R : RandomSource) : Prop :=
  shuffle_permutation : forall (l : list Card) (s : rng_state), (rng_shuffle l s).1 ≡ₚ l.

(** Computations that may raise and that advance the random source. *)
Module SimM.
Section Monad.
Context {RS : RandomSource}.

Definition M (A : Type) : Type := rng_state -> result A * rng_state.

Definition ret {A} (a : A) : M A := fun s => (Ok a, s).
Definition raise {A} (e : exn) : M A := fun s => (Err e, s).
Definition lift {A} (r : result A) : M A := fun s => (r, s).

Definition bind {A B} (m : M A) (k : A -> M B) : M B :=
  fun s =>
    match m s with
    | (Ok a, s') => k a s'
    | (Err e, s') => (Err e, s')
    end.

(** [try: m  except ValueError: handler]. *)
Definition catch_value_error {A} (m : M A) (handler : M A) : M A :=
  fun s =>
    match m s with
    | (Err (ValueError _), s') => handler s'
    | other => other
    end.
End Monad.
End SimM.
Import SimM.

Notation "'let*' x ':=' m 'in' k" := (bind m (fun x => k))
  (at level 10, x name, m at level 100, k at level 200, only parsing).

(* ===================================================================== *)
(** * Hand evaluator wrapper ([hand_evaluator.py])                        *)
(* ===================================================================== *)

Module HandEvaluator.
Section Evaluator.
Context {HR : HandRankOracle}.

(** [_ensure_no_duplicates], with the [seen] set made explicit. *)
Fixpoint ensure_no_duplicates_from (seen : gset string) (cards : list Card)
  : result unit :=
  match cards with
  | [] => Ok tt
  | card :: rest =>
      let rep := Card_str card in
      if bool_decide (rep ∈ seen)
      then Err (ValueError ("Duplicate card detected: " +:+ rep))
      else ensure_no_duplicates_from ({[ rep ]} ∪ seen) rest
  end.

Definition _ensure_no_duplicates (cards : list Card) : result unit :=
  ensure_no_duplicates_from ∅ cards.

(** [HandEvaluator.evaluate_hand]. *)
Definition evaluate_hand (hole_cards board : list Card) : result Z :=
  if negb (length hole_cards =? 2)%nat
  then Err (ValueError "Hole cards must contain exactly two cards")
  else if (5 <? length board)%nat
  then Err (ValueError "Board cannot contain more than five cards")
  else
    rbind (_ensure_no_duplicates (hole_cards ++ board)) (fun _ =>
    Ok (treys_evaluate board hole_cards)).
End Evaluator.
End HandEvaluator.

(* ===================================================================== *)
(** * Monte Carlo simulator ([monte_carlo.py])                            *)
(* ===================================================================== *)

Module MonteCarlo.

Record MonteCarloSimulator := { num_simulations : Z }.

(** [MonteCarloSimulator.__init__]. *)
Definition MonteCarloSimulator_new (n : Z) : result MonteCarloSimulator :=
  if n <=? 0 then Err (ValueError "num_simulations must be positive.")
  else Ok {| num_simulations := n |}.

(** [_validate_cards]: the [isinstance] checks hold by typing. *)
Definition _validate_cards (cards : list Card) (label : string)
           (max_length : option nat) : result unit :=
  match max_length with
  | Some m =>
      if (m <? length cards)%nat
      then Err (ValueError (label +:+ " cannot contain more cards"))
      else Ok tt
  | None => Ok tt
  end.

(** [_ensure_unique]. *)
Definition _ensure_unique (cards : list Card) (label : string) : result unit :=
  let seen : gset string := list_to_set (map Card_str cards) in
  if negb (length cards =? size seen)%nat
  then Err (ValueError ("Duplicate cards detected in " +:+ label))
  else Ok tt.

(** The list comprehension that ends [create_deck]: the full deck
    without the cards whose text is excluded. *)
Definition remaining (exclude_list : list Card) : list Card :=
  let excluded : gset string := list_to_set (map Card_str exclude_list) in
  filter (fun card => Card_str card ∉ excluded) full_deck.

(** [create_deck]. *)
Definition create_deck (exclude_cards : list Card) : result (list Card) :=
  rbind (_validate_cards exclude_cards "exclude_cards" None) (fun _ =>
  rbind (_ensure_unique exclude_cards "exclude_cards") (fun _ =>
  Ok (remaining exclude_cards))).

(** The three ways one trial can end for the hero. *)
Inductive outcome := Win | Tie | Loss.

#[global] Instance outcome_eq_dec : EqDecision outcome.
Proof. solve_decision. Defined.

(** How many trials of a list ended in a given way. *)
Definition tally (o : outcome) (log : list outcome) : Z :=
  Z.of_nat (length (filter (fun x => x = o) log)).

Section Simulation.
Context {HR : HandRankOracle} {RS : RandomSource}.

(** The inner [for opponent in range(num_opponents)] loop: deals two
    cards to each opponent from the front of the deck. *)
Fixpoint deal_opponents (n : nat) (deck sim_board : list Card)
         (opponent_ranks : list Z) : result (list Z) :=
  match n with
  | O => Ok opponent_ranks
  | S n' =>
      if (length deck <? 2)%nat
      then Err (ValueError "Deck exhausted while dealing opponent hands.")
      else
        let opponent_hand := take 2 deck in
        let deck' := drop 2 deck in
        rbind (HandEvaluator.evaluate_hand opponent_hand sim_board) (fun opponent_rank =>
        deal_opponents n' deck' sim_board (opponent_ranks ++ [opponent_rank]))
  end.

(** [min(opponent_ranks)]. *)
Definition min_rank (ranks : list Z) : result Z :=
  match ranks with
  | [] => Err (ValueError "min() arg is an empty sequence")
  | r :: rs => Ok (fold_left (fun m x => if x <? m then x else m) rs r)
  end.

(** The body of one simulation, from the shuffled deck onwards. *)
Definition play_trial (hero_cards board_list : list Card) (num_opponents : Z)
           (deck : list Card) : result outcome :=
  let board_needed := 5 - Z.of_nat (length board_list) in
  let '(sim_board, deck) :=
    if 0 <? board_needed
    then (board_list ++ take (Z.to_nat board_needed) deck,
          drop (Z.to_nat board_needed) deck)
    else (board_list, deck) in
  rbind (HandEvaluator.evaluate_hand hero_cards sim_board) (fun hero_rank =>
  rbind (deal_opponents (Z.to_nat num_opponents) deck sim_board []) (fun opponent_ranks =>
  rbind (min_rank opponent_ranks) (fun best_opponent_rank =>
    if hero_rank <? best_opponent_rank then Ok Win
    else if hero_rank =? best_opponent_rank then Ok Tie
    else Ok Loss))).

(** The outer [for _ in range(self.num_simulations)] loop with its
    two counters. *)
Fixpoint run_trials (k : nat) (hero_cards board_list : list Card) (num_opponents : Z)
         (base_deck : list Card) (wins ties : Z) : M (Z * Z) :=
  match k with
  | O => ret (wins, ties)
  | S k' =>
      fun s =>
        let '(deck, s') := rng_shuffle base_deck s in
        match play_trial hero_cards board_list num_opponents deck with
        | Err e => (Err e, s')
        | Ok Win => run_trials k' hero_cards board_list num_opponents base_deck (wins + 1) ties s'
        | Ok Tie => run_trials k' hero_cards board_list num_opponents base_deck wins (ties + 1) s'
        | Ok Loss => run_trials k' hero_cards board_list num_opponents base_deck wins ties s'
        end
  end.

(** What each of the [k] trials yields, in order, as the random
    source advances from state [s]. *)
Fixpoint trial_log (k : nat) (hero_cards board_list : list Card) (num_opponents : Z)
         (base_deck : list Card) (s : rng_state) : list (result outcome) :=
  match k with
  | O => []
  | S k' =>
      let '(deck, s') := rng_shuffle base_deck s in
      play_trial hero_cards board_list num_opponents deck
        :: trial_log k' hero_cards board_list num_opponents base_deck s'
  end.

(** The checks made before the first trial; the result is the deck
    every trial starts from. *)
Definition check_inputs (hero_cards board : list Card) (num_opponents : Z)
  : result (list Card) :=
  rbind (_validate_cards hero_cards "hero_cards" None) (fun _ =>
  rbind (_validate_cards board "board" (Some 5%nat)) (fun _ =>
  if negb (length hero_cards =? 2)%nat
  then Err (ValueError "hero_cards must contain exactly two cards.")
  else if (5 <? length board)%nat
  then Err (ValueError "board cannot contain more than five cards.")
  else if num_opponents <? 1
  then Err (ValueError "num_opponents must be at least 1.")
  else
    let combined := hero_cards ++ board in
    rbind (_ensure_unique combined "input cards") (fun _ =>
    rbind (create_deck combined) (fun base_deck =>
      let cards_needed := zmax 0 (5 - Z.of_nat (length board)) + num_opponents * 2 in
      if Z.of_nat (length base_deck) <? cards_needed
      then Err (ValueError "Not enough cards remaining to complete the simulation.")
      else Ok base_deck)))).

(** [(wins + 0.5 * ties) / self.num_simulations]. *)
Definition equity_of (wins ties n : Z) : Q :=
  ((inject_Z wins + 0.5 * inject_Z ties) / inject_Z n)%Q.

(** [MonteCarloSimulator.simulate_equity]. *)
Definition simulate_equity (self : MonteCarloSimulator)
           (hero_cards board : list Card) (num_opponents : Z) : M Q :=
  let* base_deck := lift (check_inputs hero_cards board num_opponents) in
  let* tally := run_trials (Z.to_nat (num_simulations self)) hero_cards board
                           num_opponents base_deck 0 0 in
  ret (equity_of tally.1 tally.2 (num_simulations self)).

End Simulation.
End MonteCarlo.

(* ===================================================================== *)
(** * Decision engine ([action.py], [decision_engine.py])                 *)
(* ===================================================================== *)

Module DecisionEngine.
Import PreflopRanges OddsCalculator MonteCarlo.

(** [ActionType]. *)
Inductive ActionType := FOLD | CHECK | CALL | BET | RAISE | ALL_IN.

#[global] Instance ActionType_eq_dec : EqDecision ActionType.
Proof. solve_decision. Defined.

(** One entry of the reasoning trail: either a fixed text or a text
    around a value rendered by [_format_percentage]. *)
Inductive line :=
| Text (s : string)
| Percent (before : string) (value : Q) (after : string).

Record DecisionResult := mkDecision {
  action : ActionType;
  amount : Q;
  reasoning : list line
}.

Definition PREMIUM_HANDS : gset string :=
  list_to_set ["AA"; "KK"; "QQ"; "AKS"; "AKO"].

Definition STRONG_HANDS : gset string :=
  list_to_set ["JJ"; "TT"; "99"; "AQS"; "AJS"; "AQO"; "KQS"].

Definition SPECULATIVE_HANDS : gset string :=
  list_to_set (map upper ["ATs"; "KJs"; "QJs"; "JTs"; "T9s"; "98s"; "87s"; "A5s";
                          "A4s"; "A3s"; "A2s"; "KTs"; "QTs"]).

Record Engine := { monte_carlo : MonteCarloSimulator }.


(** [_multiway_adjustment]. *)
Definition _multiway_adjustment (opponents : Z) : Q :=
  let extras := zmax 0 (opponents - 1) in
  (inject_Z extras * 0.05)%Q.

(** [_infer_big_blind]. *)
Definition _infer_big_blind (gs : GameState) : Q :=
  if Qltb 0 (pot_size gs) then pymax 1 (pot_size gs / 1.5)%Q else 10%Q.

Definition _suggest_open_raise (gs : GameState) : Q :=
  let big_blind := _infer_big_blind gs in
  let amount := (2.7 * big_blind)%Q in
  pymin amount (your_stack gs).

Definition _suggest_3bet_size (gs : GameState) : Q :=
  let base := if Qltb 0 (bet_to_call gs)
              then (bet_to_call gs * 3)%Q
              else (_infer_big_blind gs * 3)%Q in
  pymin base (your_stack gs).

Definition _suggest_value_bet (gs : GameState) : Q :=
  let amount := pymax (pot_size gs * 0.6)%Q (pot_size gs * 0.5)%Q in
  pymin amount (your_stack gs).

Definition _suggest_small_bet (gs : GameState) : Q :=
  let amount := (pot_size gs * 0.4)%Q in
  if Qltb 0 amount then pymin amount (your_stack gs) else 0%Q.

Definition _suggest_raise_size (gs : GameState) : Q :=
  let amount := pymax (bet_to_call gs * 2.5)%Q (pot_size gs * 0.8)%Q in
  pymin amount (your_stack gs).

(** The test of the short-stack override. *)
Definition short_stacked (gs : GameState) : bool :=
  Qleb (effective_stack gs) (pymax (pot_size gs * 1.5)%Q (bet_to_call gs)).

(** [_short_stack_adjustment]. *)
Definition _short_stack_adjustment (gs : GameState) (act : ActionType) (amt : Q)
           (reasoning : list line) : DecisionResult :=
  let effective := effective_stack gs in
  if short_stacked gs
  then mkDecision ALL_IN effective
         (reasoning ++ [Text "Stack efetivo curto → considerar all-in simplificado."])
  else
    let capped_amount := pymin amt (your_stack gs) in
    mkDecision act capped_amount reasoning.

Section Engine.
Context {HR : HandRankOracle} {RS : RandomSource}.

(** [_estimate_equity]. *)
Definition _estimate_equity (self : Engine) (gs : GameState) : M Q :=
  catch_value_error
    (simulate_equity (monte_carlo self) (hole_cards gs) (board gs)
                     (zmax 1 (active_opponents gs)))
    (ret 0%Q).

(** [_recommend_preflop].  The card strings are unpacked into the two
    positional arguments of [normalize_hand]; any other number of them
    is a [TypeError]. *)
Definition _recommend_preflop (self : Engine) (gs : GameState) : M DecisionResult :=
  match hole_cards gs with
  | [c1; c2] =>
      let* combo := lift (normalize_hand (Card_str c1) (Card_str c2)) in
      let reasoning := [Text ("Mão normalizada: " +:+ combo);
                        Text ("Posição: " +:+ position_value (your_position gs))] in
      let bet := bet_to_call gs in
      let* pot_odds := (if Qltb 0 bet then lift (calculate_pot_odds gs) else ret 0%Q) in
      let reasoning := if Qltb 0 bet
                       then reasoning ++ [Percent "Pot odds: " pot_odds ""]
                       else reasoning in
      if Qeqb bet 0 then
        let* opens := lift (should_open combo (your_position gs)) in
        if (opens : bool) then
          let reasoning :=
            reasoning ++ [Text "Mão está no range de abertura para a posição."] in
          let amt := _suggest_open_raise gs in
          ret (mkDecision RAISE amt reasoning)
        else
          ret (mkDecision FOLD 0
                 (reasoning ++ [Text "Mão fora do range de abertura → Fold."]))
      else
        let normalized_combo := upper combo in
        if bool_decide (normalized_combo ∈ PREMIUM_HANDS) then
          let reasoning :=
            reasoning ++ [Text "Mão premium → aproveitar valor com 3-bet."] in
          let amt := _suggest_3bet_size gs in
          ret (_short_stack_adjustment gs RAISE amt reasoning)
        else
          let* equity := _estimate_equity self gs in
          let reasoning :=
            reasoning ++ [Percent "Equity estimada vs range adversário: " equity ""] in
          let multiway_adjust := _multiway_adjustment (active_opponents gs) in
          let required_equity := (pot_odds + multiway_adjust)%Q in
          let reasoning :=
            reasoning ++ [Percent "Equity mínima considerando pot odds e multiway: "
                                  required_equity ""] in
          let speculative_or_fold : M DecisionResult :=
            if bool_decide (normalized_combo ∈ SPECULATIVE_HANDS) then
              let* implied_odds :=
                lift (calculate_implied_odds gs (pot_size gs * 0.5)%Q) in
              let reasoning :=
                reasoning ++ [Percent "Implied odds aproximadas: " implied_odds ""] in
              if Qleb implied_odds equity then
                ret (_short_stack_adjustment gs CALL (pymin bet (your_stack gs))
                       (reasoning
                          ++ [Text "Equity cobre as implied odds → call especulativo."]))
              else
                ret (mkDecision FOLD 0
                       (reasoning ++ [Text "Equity insuficiente → Fold."]))
            else
              ret (mkDecision FOLD 0 (reasoning ++ [Text "Equity insuficiente → Fold."]))
          in
          if bool_decide (normalized_combo ∈ STRONG_HANDS) then
            if Qleb (required_equity + 0.1)%Q equity then
              ret (_short_stack_adjustment gs RAISE (_suggest_3bet_size gs)
                     (reasoning ++ [Text "Equity bem acima do necessário → agressão."]))
            else if Qleb required_equity equity then
              ret (_short_stack_adjustment gs CALL (pymin bet (your_stack gs))
                     (reasoning ++ [Text "Equity suficiente para pagar a aposta."]))
            else speculative_or_fold
          else speculative_or_fold
  | _ => raise (TypeError "normalize_hand() takes 2 positional arguments")
  end.

(** [_recommend_postflop]. *)
Definition _recommend_postflop (self : Engine) (gs : GameState) : M DecisionResult :=
  let reasoning :=
    if (length (board gs) <? 3)%nat && negb (bool_decide (street gs = PREFLOP))
    then [Text "⚠️ Board incompleto - resultados podem ser imprecisos."]
    else [] in
  let* equity := _estimate_equity self gs in
  let reasoning := reasoning ++ [Percent "Equity estimada: " equity ""] in
  let* pot_odds := (if Qltb 0 (bet_to_call gs)
                    then lift (calculate_pot_odds gs) else ret 0%Q) in
  let reasoning := reasoning ++ [Percent "Pot odds atuais: " pot_odds ""] in
  let multiway_adjust := _multiway_adjustment (active_opponents gs) in
  let reasoning :=
    reasoning ++ [Percent "Ajuste multiway: +" multiway_adjust
                          " de equity necessária."] in
  if Qeqb (bet_to_call gs) 0 then
    if Qleb (0.65 + multiway_adjust)%Q equity then
      ret (_short_stack_adjustment gs BET (_suggest_value_bet gs)
             (reasoning ++ [Text "Equity muito alta → apostar por valor."]))
    else if Qleb (0.45 + multiway_adjust)%Q equity then
      let reasoning :=
        reasoning ++ [Text "Equity média → linha passiva ou aposta pequena."] in
      let amt := _suggest_small_bet gs in
      if Qltb 0 amt
      then ret (_short_stack_adjustment gs BET amt reasoning)
      else ret (mkDecision CHECK 0 reasoning)
    else
      ret (mkDecision CHECK 0
             (reasoning ++ [Text "Equity baixa → manter controle do pote."]))
  else
    let required_equity := (pot_odds * 1.15 + multiway_adjust)%Q in
    let reasoning :=
      reasoning ++ [Percent "Equity mínima para continuação: " required_equity ""] in
    if Qleb required_equity equity then
      if Qleb (0.70 + multiway_adjust)%Q equity then
        ret (_short_stack_adjustment gs RAISE (_suggest_raise_size gs)
               (reasoning ++ [Text "Equity dominante → raise por valor."]))
      else
        ret (_short_stack_adjustment gs CALL
               (pymin (bet_to_call gs) (your_stack gs))
               (reasoning ++ [Text "Equity suficiente → call lucrativo."]))
    else
      ret (mkDecision FOLD 0
             (reasoning ++ [Text "Equity abaixo da exigência → Fold recomendado."])).

(** [recommend_action]. *)
Definition recommend_action (self : Engine) (gs : GameState)
  : M (ActionType * Q * list line) :=
  if negb (length (hole_cards gs) =? 2)%nat
  then raise (ValueError "É necessário informar exatamente duas cartas na mão.")
  else
    let* result :=
      (if bool_decide (street gs = PREFLOP)
       then _recommend_preflop self gs
       else _recommend_postflop self gs) in
    ret (action result, amount result, reasoning result).

End Engine.

(** How a decision can leave a branch of the engine: through the
    short-stack adjustment with a bet, raise or call of non-negative
    size, or directly as a fold or check of size zero. *)
Definition adjusted (gs : GameState) (r : DecisionResult) : Prop :=
  exists act amt rs,
    r = _short_stack_adjustment gs act amt rs
    /\ (act = BET \/ act = RAISE \/ act = CALL) /\ (0 <= amt)%Q /\ rs <> [].

Definition passive (r : DecisionResult) : Prop :=
  exists rs, rs <> [] /\ (r = mkDecision FOLD 0 rs \/ r = mkDecision CHECK 0 rs).

End DecisionEngine.

(* ===================================================================== *)
(** * Concrete collaborators for running the model                        *)
(* ===================================================================== *)

(** A stand-in for the two external interfaces, used to run the model on
    concrete hands: a seven-card evaluator that orders hands by the usual
    poker categories and kickers (lower is stronger, like [treys]), and a
    deterministic generator whose shuffle cuts the deck at a position
    drawn from a linear congruential sequence. *)
Module Sample.
Import MonteCarlo DecisionEngine.

(** All sub-lists of length [k], in order. *)
Fixpoint choose {A} (k : nat) (l : list A) : list (list A) :=
  match k, l with
  | 0%nat, _ => [[]]
  | S _, [] => []
  | S k', x :: xs => map (cons x) (choose k' xs) ++ choose k xs
  end.

Definition occurrences (v : Z) (vs : list Z) : nat :=
  length (filter (fun x => x = v) vs).

(** Insert into a list kept in descending order of (multiplicity, value). *)
Fixpoint insert_by (vs : list Z) (v : Z) (sorted : list Z) : list Z :=
  match sorted with
  | [] => [v]
  | w :: rest =>
      let cv := occurrences v vs in
      let cw := occurrences w vs in
      if ((cw <? cv)%nat || ((cw =? cv)%nat && (w <? v)))%bool
      then v :: sorted
      else w :: insert_by vs v rest
  end.

Definition sort_by_multiplicity (vs : list Z) : list Z :=
  fold_left (fun acc v => insert_by vs v acc) vs [].

(** Strength of a five-card hand: category first, then kickers. *)
Definition score5 (hand : list Card) : Z :=
  let vs := map (fun c => rank_value (rank c)) hand in
  let key := sort_by_multiplicity vs in
  let counts := map (fun v => occurrences v vs) key in
  let flush := match hand with
               | c :: rest => forallb (fun d => bool_decide (suit d = suit c)) rest
               | [] => false
               end in
  let wheel := bool_decide (key = [14; 5; 4; 3; 2]) in
  let key := if wheel then [5; 4; 3; 2; 1] else key in
  let straight :=
    match key with
    | [a; b; c; d; e] =>
        (a =? b + 1) && (b =? c + 1) && (c =? d + 1) && (d =? e + 1)
    | _ => false
    end in
  let category :=
    if straight && flush then 8
    else match counts with
         | 4%nat :: _ => 7
         | 3%nat :: 3%nat :: 3%nat :: 2%nat :: _ => 6
         | _ =>
             if flush then 5
             else if straight then 4
             else match counts with
                  | 3%nat :: _ => 3
                  | 2%nat :: 2%nat :: 2%nat :: _ => 2
                  | 2%nat :: _ => 1
                  | _ => 0
                  end
         end in
  fold_left (fun acc v => acc * 15 + v) key category.

(** Best five of the seven cards; the rank grows as the hand weakens. *)
Definition reference_rank (board hole : list Card) : Z :=
  let best := fold_left Z.max (map score5 (choose 5 (board ++ hole))) 0 in
  10000000 - best.

Definition reference_oracle : HandRankOracle :=
  {| treys_evaluate := reference_rank |}.

(** Cut the deck at [s mod len] and step the generator. *)
Definition cut_shuffle (l : list Card) (s : Z) : list Card * Z :=
  let k := Z.to_nat (s mod Z.of_nat (length l)) in
  (drop k l ++ take k l, (s * 1103515245 + 12345) mod 2147483648).

Definition cutting_source : RandomSource :=
  {| rng_state := Z; rng_shuffle := cut_shuffle |}.

Definition card (r : Rank) (s : Suit) : Card := mkCard r s.

Definition engine3 : Engine := {| monte_carlo := {| num_simulations := 3 |} |}.

(** Seven-deuce offsuit under the gun, nobody has bet, 40 chips behind
    and 100 in the pot. *)
Definition short_stack_open : GameState :=
  {| hole_cards := [card SEVEN CLUBS; card TWO DIAMONDS];
     board := [];
     street := PREFLOP;
     pot_size := 100; bet_to_call := 0; your_stack := 40;
     opponent_stacks := [];
     your_position := UTG;
     num_opponents := 5; active_opponents := 5;
     preflop_action := [] |}.

(** A royal flush on the river, facing a bet of 20 into 100 with 40
    chips behind, one opponent. *)
Definition short_stack_river : GameState :=
  {| hole_cards := [card JACK SPADES; card TEN SPADES];
     board := [card ACE SPADES; card KING SPADES; card QUEEN SPADES;
               card SEVEN DIAMONDS; card TWO CLUBS];
     street := RIVER;
     pot_size := 100; bet_to_call := 20; your_stack := 40;
     opponent_stacks := [1000%Q];
     your_position := BTN;
     num_opponents := 1; active_opponents := 1;
     preflop_action := [] |}.

(** The same river with deep stacks. *)
Definition deep_river : GameState :=
  {| hole_cards := [card JACK SPADES; card TEN SPADES];
     board := [card ACE SPADES; card KING SPADES; card QUEEN SPADES;
               card SEVEN DIAMONDS; card TWO CLUBS];
     street := RIVER;
     pot_size := 100; bet_to_call := 20; your_stack := 1000;
     opponent_stacks := [1000%Q];
     your_position := BTN;
     num_opponents := 1; active_opponents := 1;
     preflop_action := [] |}.




(** A flop with 23 opponents still in: the deck cannot supply the two
    board cards and 46 hole cards a trial needs. *)
Definition crowded_flop : GameState :=
  {| hole_cards := [card ACE SPADES; card KING SPADES];
     board := [card TWO CLUBS; card SEVEN DIAMONDS; card NINE SPADES];
     street := FLOP;
     pot_size := 100; bet_to_call := 50; your_stack := 1000;
     opponent_stacks := [];
     your_position := BTN;
     num_opponents := 23; active_opponents := 23;
     preflop_action := [] |}.

End Sample.


(* ===================================================================== *)
(** * Properties                                                          *)
(* ===================================================================== *)

Import SimM PreflopRanges OddsCalculator MonteCarlo DecisionEngine.

(** ** Boolean comparisons on rationals *)

Lemma Qltb_true (a b : Q) : Qltb a b = true <-> (a < b)%Q.
Proof.
  unfold Qltb. rewrite negb_true_iff. split.
  - intros H. apply Qnot_le_lt. intros Hle. apply Qle_bool_iff in Hle. congruence.
  - intros H. destruct (Qle_bool b a) eqn:E; [|reflexivity].
    apply Qle_bool_iff in E. exfalso. exact (Qlt_not_le _ _ H E).
Qed.

Lemma Qltb_false (a b : Q) : Qltb a b = false <-> (b <= a)%Q.
Proof.
  unfold Qltb. rewrite negb_false_iff. apply Qle_bool_iff.
Qed.

Lemma Qleb_true (a b : Q) : Qleb a b = true <-> (a <= b)%Q.
Proof. apply Qle_bool_iff. Qed.

Lemma Qleb_false (a b : Q) : Qleb a b = false <-> (b < a)%Q.
Proof.
  unfold Qleb. split.
  - intros H. apply Qnot_le_lt. intros Hle. apply Qle_bool_iff in Hle. congruence.
  - intros H. destruct (Qle_bool a b) eqn:E; [|reflexivity].
    apply Qle_bool_iff in E. exfalso. exact (Qlt_not_le _ _ H E).
Qed.

Lemma Qeqb_true (a b : Q) : Qeqb a b = true <-> (a == b)%Q.
Proof. apply Qeq_bool_iff. Qed.

Lemma Qeqb_false (a b : Q) : Qeqb a b = false <-> ~ (a == b)%Q.
Proof.
  unfold Qeqb. split.
  - intros H Heq. apply Qeq_bool_iff in Heq. congruence.
  - intros H. destruct (Qeq_bool a b) eqn:E; [|reflexivity].
    apply Qeq_bool_iff in E. contradiction.
Qed.

Lemma pymin_le_l (a b : Q) : (pymin a b <= a)%Q.
Proof.
  unfold pymin. destruct (Qltb b a) eqn:E.
  - apply Qltb_true in E. apply Qlt_le_weak, E.
  - apply Qle_refl.
Qed.

Lemma pymin_le_r (a b : Q) : (pymin a b <= b)%Q.
Proof.
  unfold pymin. destruct (Qltb b a) eqn:E.
  - apply Qle_refl.
  - apply Qltb_false in E. exact E.
Qed.

Lemma pymin_glb (a b c : Q) : (c <= a)%Q -> (c <= b)%Q -> (c <= pymin a b)%Q.
Proof. unfold pymin. destruct (Qltb b a); auto. Qed.

Lemma pymax_ge_l (a b : Q) : (a <= pymax a b)%Q.
Proof.
  unfold pymax. destruct (Qltb a b) eqn:E.
  - apply Qltb_true in E. apply Qlt_le_weak, E.
  - apply Qle_refl.
Qed.

Lemma pymax_ge_r (a b : Q) : (b <= pymax a b)%Q.
Proof.
  unfold pymax. destruct (Qltb a b) eqn:E.
  - apply Qle_refl.
  - apply Qltb_false in E. exact E.
Qed.

Lemma pymax_nonneg_id (a : Q) : (0 <= a)%Q -> pymax a 0 = a.
Proof.
  intros H. unfold pymax. destruct (Qltb a 0) eqn:E; [|reflexivity].
  apply Qltb_true in E. exfalso. exact (Qlt_not_le _ _ E H).
Qed.

(** ** Cards and combo labels *)

Lemma normalize_hand_label (c1 c2 : Card) :
  normalize_hand (Card_str c1) (Card_str c2) = Ok (canonical_label c1 c2).
Proof. destruct c1 as [[] []], c2 as [[] []]; vm_compute; reflexivity. Qed.

Lemma canonical_label_sym (c1 c2 : Card) :
  canonical_label c1 c2 = canonical_label c2 c1.
Proof. destruct c1 as [[] []], c2 as [[] []]; vm_compute; reflexivity. Qed.

(** C6.  Hand normalisation does not depend on the order of the two cards
    and yields the canonical combo label: higher rank first, no suffix
    for a pair, "s" when the suits match and "o" when they differ.  In
    particular A♠K♠ and K♠A♠ both give "AKs", 7♥7♦ gives "77" and K♠A♦
    gives "AKo".  The statement holds for any two cards, distinct or not. *)
Theorem normalize_hand_order_independent :
  (forall c1 c2 : Card,
      normalize_hand (Card_str c1) (Card_str c2)
      = normalize_hand (Card_str c2) (Card_str c1)
      /\ normalize_hand (Card_str c1) (Card_str c2) = Ok (canonical_label c1 c2))
  /\ normalize_hand (Card_str (mkCard ACE SPADES)) (Card_str (mkCard KING SPADES))
     = Ok "AKs"%string
  /\ normalize_hand (Card_str (mkCard KING SPADES)) (Card_str (mkCard ACE SPADES))
     = Ok "AKs"%string
  /\ normalize_hand (Card_str (mkCard SEVEN HEARTS)) (Card_str (mkCard SEVEN DIAMONDS))
     = Ok "77"%string
  /\ normalize_hand (Card_str (mkCard KING SPADES)) (Card_str (mkCard ACE DIAMONDS))
     = Ok "AKo"%string.
Proof.
  split; [|repeat split; vm_compute; reflexivity].
  intros c1 c2. split.
  - rewrite !normalize_hand_label. f_equal. apply canonical_label_sym.
  - apply normalize_hand_label.
Qed.

(** ** Range tables *)

(** C9.  "AA" belongs to the opening range of each of the six positions
    and "72o" to none of them; [should_open] answers accordingly. *)
Theorem opening_ranges_AA_72o :
  forall p : Position,
    exists range : gset string,
      OPENING_RANGES p = Ok range
      /\ ("AA" : string) ∈ range
      /\ (("72o" : string) ∉ range)
      /\ should_open "AA" p = Ok true
      /\ should_open "72o" p = Ok false.
Proof.
  intros p.
  assert (Hc : match OPENING_RANGES p with
               | Ok range => bool_decide (("AA" : string) ∈ range) = true
                             /\ bool_decide (("72o" : string) ∈ range) = false
               | Err _ => False
               end
               /\ should_open "AA" p = Ok true
               /\ should_open "72o" p = Ok false).
  { destruct p; vm_compute; auto. }
  destruct (OPENING_RANGES p) as [range|e]; [|tauto].
  exists range. destruct Hc as ((H1 & H2) & H3 & H4).
  apply bool_decide_eq_true in H1. apply bool_decide_eq_false in H2. auto.
Qed.

(** ** Validated game states *)

Lemma remove_dups_length_le {A} `{EqDecision A} (l : list A) :
  (length (remove_dups l) <= length l)%nat.
Proof.
  induction l as [|x l IH]; cbn; [lia|].
  destruct (decide_rel elem_of x l); cbn; lia.
Qed.

Lemma remove_dups_length_NoDup {A} `{EqDecision A} (l : list A) :
  length l = length (remove_dups l) -> NoDup l.
Proof.
  induction l as [|x l IH]; cbn; intros Hlen; [constructor|].
  pose proof (remove_dups_length_le l) as Hle.
  destruct (decide_rel elem_of x l) as [Hin|Hnin]; cbn in Hlen; [lia|].
  constructor; [exact Hnin|]. apply IH. lia.
Qed.

Lemma existsb_Qltb_false (xs : list Q) :
  existsb (fun v => Qltb v 0) xs = false -> Forall (fun v => (0 <= v)%Q) xs.
Proof.
  induction xs as [|x xs IH]; cbn; intros H; [constructor|].
  apply orb_false_iff in H as [Hx Hxs]. constructor; [|auto].
  apply Qltb_false in Hx. exact Hx.
Qed.

Lemma valid_state_facts (gs : GameState) : valid_state gs -> state_facts gs.
Proof.
  unfold valid_state, post_init, validate_cards, validate_no_duplicates,
    validate_numeric_fields, distinct_count.
  destruct (2 <? length (hole_cards gs))%nat eqn:Eh; cbn [rbind]; [discriminate|].
  destruct (5 <? length (board gs))%nat eqn:Eb; cbn [rbind]; [discriminate|].
  destruct (length (hole_cards gs ++ board gs)
            =? length (remove_dups (hole_cards gs ++ board gs)))%nat eqn:Ed;
    cbn [negb rbind]; [|discriminate].
  destruct (existsb _ [_; _; _]) eqn:En; [discriminate|].
  destruct (existsb _ (opponent_stacks gs)) eqn:Eo; [discriminate|].
  destruct (num_opponents gs <? 0) eqn:E1; [discriminate|].
  destruct (active_opponents gs <? 0) eqn:E2; [discriminate|].
  destruct (num_opponents gs <? active_opponents gs) eqn:E3; [discriminate|].
  intros _.
  apply Nat.ltb_ge in Eh, Eb. apply Nat.eqb_eq in Ed.
  apply Z.ltb_ge in E1, E2, E3.
  apply existsb_Qltb_false in En, Eo.
  inversion En as [|? ? Hp En1]; subst. inversion En1 as [|? ? Hb En2]; subst.
  inversion En2 as [|? ? Hs _]; subst.
  cbn beta in *.
  split; try assumption; try lia.
  apply remove_dups_length_NoDup, Ed.
Qed.

(** ** Pot odds *)

(** C5.  On every validated state the property [GameState.pot_odds] and
    [OddsCalculator.calculate_pot_odds] are both [bet_to_call / (pot_size
    + bet_to_call)] when a bet is owed and [0] when [bet_to_call] is
    zero, so the two agree everywhere; with a pot of 100 and 50 to call
    the value is 1/3. *)
Theorem pot_odds_agree (gs : GameState) :
  valid_state gs ->
  ((0 < bet_to_call gs)%Q ->
     pot_odds gs = (bet_to_call gs / (pot_size gs + bet_to_call gs))%Q
     /\ calculate_pot_odds gs
        = Ok (bet_to_call gs / (pot_size gs + bet_to_call gs))%Q)
  /\ ((bet_to_call gs == 0)%Q ->
        pot_odds gs = 0%Q /\ calculate_pot_odds gs = Ok 0%Q)
  /\ calculate_pot_odds gs = Ok (pot_odds gs)
  /\ ((pot_size gs == 100)%Q -> (bet_to_call gs == 50)%Q ->
        (pot_odds gs == 1 # 3)%Q).
Proof.
  intros Hv. apply valid_state_facts in Hv. destruct Hv.
  assert (Hpos : (0 < bet_to_call gs)%Q ->
     pot_odds gs = (bet_to_call gs / (pot_size gs + bet_to_call gs))%Q
     /\ calculate_pot_odds gs
        = Ok (bet_to_call gs / (pot_size gs + bet_to_call gs))%Q).
  { intros Hb.
    assert (Ht : (0 < pot_size gs + bet_to_call gs)%Q).
    { apply Qlt_le_trans with (bet_to_call gs); [exact Hb|].
      rewrite <- (Qplus_0_l (bet_to_call gs)) at 1.
      apply Qplus_le_compat; [assumption|apply Qle_refl]. }
    unfold pot_odds, calculate_pot_odds.
    rewrite !pymax_nonneg_id by assumption.
    rewrite (proj2 (Qleb_false _ _) Hb), (proj2 (Qleb_false _ _) Ht).
    assert (Hne : Qeqb (bet_to_call gs) 0 = false).
    { apply Qeqb_false. intros Heq. rewrite Heq in Hb. exact (Qlt_irrefl _ Hb). }
    rewrite Hne. split; reflexivity. }
  assert (Hzero : (bet_to_call gs == 0)%Q ->
                  pot_odds gs = 0%Q /\ calculate_pot_odds gs = Ok 0%Q).
  { intros Hb. unfold pot_odds, calculate_pot_odds.
    rewrite !pymax_nonneg_id by assumption.
    rewrite (proj2 (Qeqb_true _ _) Hb).
    assert (Hle : Qleb (bet_to_call gs) 0 = true).
    { apply Qleb_true. rewrite Hb. apply Qle_refl. }
    rewrite Hle. split; reflexivity. }
  repeat split; try (apply Hpos; assumption); try (apply Hzero; assumption).
  - destruct (Qlt_le_dec 0 (bet_to_call gs)) as [Hb|Hb].
    + destruct (Hpos Hb) as [-> ->]. reflexivity.
    + assert (Hz : (bet_to_call gs == 0)%Q) by (apply Qle_antisym; assumption).
      destruct (Hzero Hz) as [-> ->]. reflexivity.
  - intros Hp Hb.
    assert (Hb' : (0 < bet_to_call gs)%Q) by (rewrite Hb; reflexivity).
    destruct (Hpos Hb') as [-> _]. rewrite Hp, Hb. reflexivity.
Qed.
Lemma pot_odds_agree_witness :
  ((0 < bet_to_call Sample.crowded_flop)%Q ->
     pot_odds Sample.crowded_flop
     = (bet_to_call Sample.crowded_flop
        / (pot_size Sample.crowded_flop + bet_to_call Sample.crowded_flop))%Q
     /\ calculate_pot_odds Sample.crowded_flop
        = Ok (bet_to_call Sample.crowded_flop
              / (pot_size Sample.crowded_flop + bet_to_call Sample.crowded_flop))%Q)
  /\ ((bet_to_call Sample.crowded_flop == 0)%Q ->
        pot_odds Sample.crowded_flop = 0%Q
        /\ calculate_pot_odds Sample.crowded_flop = Ok 0%Q)
  /\ calculate_pot_odds Sample.crowded_flop = Ok (pot_odds Sample.crowded_flop)
  /\ ((pot_size Sample.crowded_flop == 100)%Q ->
        (bet_to_call Sample.crowded_flop == 50)%Q ->
        (pot_odds Sample.crowded_flop == 1 # 3)%Q).
Proof.
  apply (pot_odds_agree Sample.crowded_flop). vm_compute. reflexivity.
Defined.

(** ** Uniqueness checks and the working deck *)

#[global] Instance Card_str_inj : Inj (=) (=) Card_str.
Proof.
  intros c1 c2 H. destruct c1 as [[] []], c2 as [[] []]; vm_compute in H;
    first [reflexivity | discriminate].
Qed.

Lemma size_list_to_set_le (l : list string) :
  (size (list_to_set l : gset string) <= length l)%nat.
Proof.
  induction l as [|x l IH]; [rewrite list_to_set_nil, size_empty; cbn; lia|].
  rewrite list_to_set_cons. cbn [length].
  rewrite size_union_alt, size_singleton.
  assert (Hsub : (list_to_set l ∖ {[x]} : gset string) ⊆ list_to_set l) by set_solver.
  apply subseteq_size in Hsub. lia.
Qed.

Lemma size_list_to_set_NoDup (l : list string) :
  length l = size (list_to_set l : gset string) -> NoDup l.
Proof.
  induction l as [|x l IH]; [constructor|].
  rewrite list_to_set_cons. cbn [length]. intros Hlen.
  pose proof (size_list_to_set_le l) as Hle.
  destruct (decide (x ∈ l)) as [Hin|Hnin].
  - exfalso.
    assert (Heq : ({[x]} ∪ list_to_set l : gset string) = list_to_set l).
    { apply leibniz_equiv. set_solver. }
    rewrite Heq in Hlen. lia.
  - constructor; [exact Hnin|]. apply IH.
    rewrite size_union in Hlen by set_solver.
    rewrite size_singleton in Hlen. lia.
Qed.

Lemma map_fmap {A B} (f : A -> B) (l : list A) : map f l = f <$> l.
Proof. reflexivity. Qed.

Lemma ensure_unique_iff (cards : list Card) (label : string) :
  (NoDup cards -> _ensure_unique cards label = Ok tt)
  /\ (~ NoDup cards -> exists msg, _ensure_unique cards label = Err (ValueError msg)).
Proof.
  unfold _ensure_unique. rewrite map_fmap.
  destruct (length cards =? size (list_to_set (Card_str <$> cards) : gset string))%nat
    eqn:E; cbn [negb].
  - split; [reflexivity|]. intros Hdup. exfalso. apply Hdup.
    apply Nat.eqb_eq in E. rewrite <- (length_fmap Card_str) in E.
    apply size_list_to_set_NoDup in E. by apply (NoDup_fmap Card_str) in E.
  - split; [|eauto]. intros Hnd. exfalso.
    apply Nat.eqb_neq in E. apply E.
    rewrite size_list_to_set by (by apply (NoDup_fmap_2 Card_str)).
    by rewrite length_fmap.
Qed.

Lemma NoDup_full_deck : NoDup full_deck.
Proof. apply (bool_decide_unpack _). vm_compute. exact I. Qed.

Lemma elem_of_full_deck (c : Card) : c ∈ full_deck.
Proof. destruct c as [[] []]; apply (bool_decide_unpack _); vm_compute; exact I. Qed.

Lemma elem_of_remaining (known : list Card) (c : Card) :
  c ∈ remaining known <-> c ∉ known.
Proof.
  unfold remaining. cbv zeta. rewrite list_elem_of_filter, map_fmap, elem_of_list_to_set.
  rewrite (list_elem_of_fmap_inj Card_str). pose proof (elem_of_full_deck c). tauto.
Qed.

Lemma NoDup_remaining (known : list Card) : NoDup (remaining known).
Proof. apply NoDup_filter, NoDup_full_deck. Qed.

Lemma remaining_length (known : list Card) :
  NoDup known -> (length (remaining known) + length known = 52)%nat.
Proof.
  intros Hnd.
  assert (Hp : remaining known ++ known ≡ₚ full_deck).
  { apply NoDup_Permutation.
    - apply NoDup_app. split; [apply NoDup_remaining|]. split; [|exact Hnd].
      intros x Hx. by apply elem_of_remaining in Hx.
    - apply NoDup_full_deck.
    - intros x. rewrite elem_of_app, elem_of_remaining.
      pose proof (elem_of_full_deck x). destruct (decide (x ∈ known)); tauto. }
  apply Permutation_length in Hp. rewrite length_app in Hp. exact Hp.
Qed.

Lemma create_deck_ok (known : list Card) :
  NoDup known -> create_deck known = Ok (remaining known).
Proof.
  intros Hnd. unfold create_deck, _validate_cards. cbn [rbind].
  rewrite (proj1 (ensure_unique_iff known _) Hnd). reflexivity.
Qed.

(** ** One trial *)

Section Trials.
Context {HR : HandRankOracle}.

Lemma ensure_no_duplicates_from_ok (seen : gset string) (cards : list Card) :
  NoDup cards ->
  (forall c, c ∈ cards -> Card_str c ∉ seen) ->
  HandEvaluator.ensure_no_duplicates_from seen cards = Ok tt.
Proof.
  revert seen. induction cards as [|c cards IH]; intros seen Hnd Hseen; [reflexivity|].
  cbn [HandEvaluator.ensure_no_duplicates_from].
  apply NoDup_cons in Hnd as [Hc Hnd].
  rewrite bool_decide_eq_false_2 by (apply Hseen; left).
  apply IH; [exact Hnd|]. intros d Hd.
  rewrite elem_of_union, elem_of_singleton. intros [Heq|Hin].
  - apply (inj Card_str) in Heq. subst d. contradiction.
  - apply (Hseen d); [by right|exact Hin].
Qed.

Lemma evaluate_hand_ok (hole board : list Card) :
  length hole = 2%nat -> (length board <= 5)%nat -> NoDup (hole ++ board) ->
  HandEvaluator.evaluate_hand hole board = Ok (treys_evaluate board hole).
Proof.
  intros Hh Hb Hnd. unfold HandEvaluator.evaluate_hand, HandEvaluator._ensure_no_duplicates.
  rewrite Hh. cbn [Nat.eqb negb].
  rewrite (proj2 (Nat.ltb_ge 5 (length board)) Hb).
  rewrite ensure_no_duplicates_from_ok; [reflexivity|exact Hnd|].
  intros c _. apply not_elem_of_empty.
Qed.

Lemma deal_opponents_ok (n : nat) (deck sim_board : list Card) (acc : list Z) :
  (length sim_board <= 5)%nat -> NoDup (deck ++ sim_board) ->
  (2 * n <= length deck)%nat ->
  exists ranks, deal_opponents n deck sim_board acc = Ok (acc ++ ranks)
                /\ length ranks = n.
Proof.
  intros Hb. revert deck acc. induction n as [|n IH]; intros deck acc Hnd Hlen.
  - exists []. by rewrite app_nil_r.
  - cbn [deal_opponents].
    rewrite (proj2 (Nat.ltb_ge (length deck) 2)) by lia.
    rewrite <- (take_drop 2 deck) in Hnd.
    rewrite <- app_assoc in Hnd. apply NoDup_app in Hnd as (Hnd1 & Hdisj & Hnd2).
    rewrite evaluate_hand_ok; cycle 1.
    { rewrite length_take. lia. }
    { exact Hb. }
    { apply NoDup_app. split; [exact Hnd1|]. split; [|by apply NoDup_app in Hnd2 as (_ & _ & ?)].
      intros x Hx Hin. apply (Hdisj x Hx). apply elem_of_app. by right. }
    cbn [rbind].
    destruct (IH (drop 2 deck) (acc ++ [treys_evaluate sim_board (take 2 deck)]))
      as (ranks & Hr & Hl).
    { exact Hnd2. }
    { rewrite length_drop. lia. }
    exists (treys_evaluate sim_board (take 2 deck) :: ranks).
    rewrite Hr, <- app_assoc. cbn. split; [reflexivity|lia].
Qed.

(** A trial on any rearrangement of the working deck ends normally. *)
Lemma play_trial_ok (hero board deck : list Card) (n : Z) :
  length hero = 2%nat -> (length board <= 5)%nat -> NoDup (hero ++ board) ->
  1 <= n ->
  5 - Z.of_nat (length board) + n * 2 <= Z.of_nat (length deck) ->
  deck ≡ₚ remaining (hero ++ board) ->
  exists o, play_trial hero board n deck = Ok o.
Proof.
  intros Hh Hb Hnd Hn Hlen Hperm.
  assert (Hdnd : NoDup deck) by (rewrite Hperm; apply NoDup_remaining).
  assert (Hdisj : forall c, c ∈ deck -> c ∉ hero ++ board).
  { intros c Hc. rewrite Hperm in Hc. by apply elem_of_remaining in Hc. }
  set (k := Z.to_nat (5 - Z.of_nat (length board))).
  assert (Hsplit :
    (if 0 <? 5 - Z.of_nat (length board)
     then (board ++ take k deck, drop k deck) else (board, deck))
    = (board ++ take k deck, drop k deck)).
  { destruct (0 <? 5 - Z.of_nat (length board)) eqn:E; [reflexivity|].
    apply Z.ltb_ge in E. replace k with 0%nat by lia.
    by rewrite take_0, drop_0, app_nil_r. }
  unfold play_trial. fold k. rewrite Hsplit. clear Hsplit.
  assert (Hall : NoDup (hero ++ board ++ deck)).
  { rewrite app_assoc. apply NoDup_app. split; [exact Hnd|]. split; [|exact Hdnd].
    intros x Hx Hd. exact (Hdisj x Hd Hx). }
  rewrite <- (take_drop k deck) in Hall.
  rewrite (app_assoc board) in Hall.
  rewrite evaluate_hand_ok; cycle 1.
  { exact Hh. }
  { rewrite length_app, length_take. lia. }
  { rewrite app_assoc in Hall. by apply NoDup_app in Hall as (? & _ & _). }
  cbn [rbind].
  destruct (deal_opponents_ok (Z.to_nat n) (drop k deck) (board ++ take k deck) [])
    as (ranks & Hr & Hl).
  { rewrite length_app, length_take. lia. }
  { apply NoDup_app in Hall as (_ & _ & Hall).
    eapply NoDup_Permutation_proper; [|exact Hall]. apply Permutation_app_comm. }
  { rewrite length_drop. lia. }
  rewrite Hr. cbn [rbind app].
  destruct ranks as [|r ranks]; [cbn in Hl; lia|].
  cbn [min_rank rbind].
  destruct (_ <? _); [eauto|]. destruct (_ =? _); eauto.
Qed.
End Trials.

(** ** Input checks of the simulator *)

Section Simulator.
Context {HR : HandRankOracle} {RS : RandomSource}.

(** [check_inputs] accepts exactly the well-formed requests, hands back
    the working deck for them, and rejects the others with a
    [ValueError]. *)
Lemma check_inputs_spec (hero board : list Card) (n : Z) :
  match check_inputs hero board n with
  | Ok deck =>
      length hero = 2%nat /\ (length board <= 5)%nat /\ 1 <= n
      /\ NoDup (hero ++ board)
      /\ deck = remaining (hero ++ board)
      /\ 5 - Z.of_nat (length board) + n * 2 <= Z.of_nat (length deck)
      /\ Z.of_nat (length deck) = 52 - Z.of_nat (length (hero ++ board))
  | Err e =>
      (exists msg, e = ValueError msg)
      /\ (length hero <> 2%nat \/ (5 < length board)%nat \/ n < 1
          \/ ~ NoDup (hero ++ board)
          \/ 52 - Z.of_nat (length (hero ++ board))
             < 5 - Z.of_nat (length board) + 2 * n)
  end.
Proof.
  unfold check_inputs, _validate_cards. cbn [rbind].
  destruct (5 <? length board)%nat eqn:Eb; cbn [rbind].
  { apply Nat.ltb_lt in Eb. split; [eauto|]. right; left; exact Eb. }
  apply Nat.ltb_ge in Eb.
  destruct (length hero =? 2)%nat eqn:Eh; cbn [negb].
  2:{ apply Nat.eqb_neq in Eh. split; [eauto|]. left; exact Eh. }
  apply Nat.eqb_eq in Eh.
  destruct (n <? 1) eqn:En.
  { apply Z.ltb_lt in En. split; [eauto|]. right; right; left; exact En. }
  apply Z.ltb_ge in En.
  destruct (decide (NoDup (hero ++ board))) as [Hnd|Hdup].
  2:{ destruct (proj2 (ensure_unique_iff (hero ++ board) "input cards") Hdup)
        as [msg ->].
      cbn [rbind]. split; [eauto|]. right; right; right; left; exact Hdup. }
  rewrite (proj1 (ensure_unique_iff (hero ++ board) "input cards") Hnd).
  cbn [rbind]. rewrite (create_deck_ok _ Hnd). cbn [rbind].
  pose proof (remaining_length _ Hnd) as Hlen.
  assert (Hmax : zmax 0 (5 - Z.of_nat (length board)) = 5 - Z.of_nat (length board)).
  { unfold zmax. destruct (0 <? _) eqn:E; [reflexivity|]. apply Z.ltb_ge in E. lia. }
  rewrite Hmax.
  destruct (Z.of_nat (length (remaining (hero ++ board))) <? _) eqn:Ed.
  - apply Z.ltb_lt in Ed. split; [eauto|]. right; right; right; right. lia.
  - apply Z.ltb_ge in Ed. repeat split; try assumption; try lia.
Qed.

(** ** The trial loop *)

Lemma tally_cons (o x : outcome) (log : list outcome) :
  tally o (x :: log) = (if decide (x = o) then 1 else 0) + tally o log.
Proof.
  unfold tally. rewrite filter_cons. case_decide; cbn [length]; lia.
Qed.

Lemma tally_nonneg (o : outcome) (log : list outcome) : 0 <= tally o log.
Proof. unfold tally. lia. Qed.

Lemma tally_total (log : list outcome) :
  tally Win log + tally Tie log + tally Loss log = Z.of_nat (length log).
Proof.
  induction log as [|x log IH]; [reflexivity|].
  rewrite !tally_cons. cbn [length].
  destruct x; repeat case_decide; try congruence; lia.
Qed.

(** The loop adds to its counters the wins and ties of the trials it
    ran, provided each trial ended normally. *)
Lemma run_trials_log (k : nat) (hero board deck : list Card) (n : Z)
      (outs : list outcome) :
  forall (wins ties : Z) (s : rng_state),
    trial_log k hero board n deck s = Ok <$> outs ->
    exists s',
      run_trials k hero board n deck wins ties s
      = (Ok (wins + tally Win outs, ties + tally Tie outs), s').
Proof.
  revert outs. induction k as [|k IH]; intros outs wins ties s Hlog.
  - destruct outs; [|discriminate]. exists s. cbn. unfold ret, tally. cbn.
    by rewrite !Z.add_0_r.
  - cbn [trial_log run_trials] in *.
    destruct (rng_shuffle deck s) as [d s1].
    destruct outs as [|o outs]; [discriminate|].
    rewrite fmap_cons in Hlog. injection Hlog as Ho Hrest. rewrite Ho.
    rewrite !tally_cons.
    destruct o;
      [ destruct (IH outs (wins + 1) ties s1 Hrest) as [s' ->]
      | destruct (IH outs wins (ties + 1) s1 Hrest) as [s' ->]
      | destruct (IH outs wins ties s1 Hrest) as [s' ->] ];
      exists s'; repeat case_decide; try congruence; do 3 f_equal; lia.
Qed.

Lemma trial_log_ok `{!LawfulShuffle RS} (k : nat) (hero board : list Card) (n : Z) :
  length hero = 2%nat -> (length board <= 5)%nat -> NoDup (hero ++ board) ->
  1 <= n ->
  5 - Z.of_nat (length board) + n * 2
    <= Z.of_nat (length (remaining (hero ++ board))) ->
  forall s : rng_state,
    exists outs,
      trial_log k hero board n (remaining (hero ++ board)) s = Ok <$> outs
      /\ length outs = k.
Proof.
  intros Hh Hb Hnd Hn Hlen. induction k as [|k IH]; intros s.
  - exists []. split; reflexivity.
  - cbn [trial_log].
    pose proof (shuffle_permutation (remaining (hero ++ board)) s) as Hperm.
    destruct (rng_shuffle (remaining (hero ++ board)) s) as [d s1]. cbn [fst] in Hperm.
    destruct (play_trial_ok hero board d n Hh Hb Hnd Hn) as [o Ho].
    { by rewrite (Permutation_length Hperm). }
    { exact Hperm. }
    destruct (IH s1) as (outs & Houts & Hl).
    exists (o :: outs). rewrite Ho, Houts. split; [reflexivity|cbn; lia].
Qed.
End Simulator.

Lemma equity_of_bounds (wins ties n : Z) :
  0 <= wins -> 0 <= ties -> wins + ties <= n -> 0 < n ->
  (0 <= equity_of wins ties n <= 1)%Q.
Proof.
  intros Hw Ht Hsum Hn. unfold equity_of.
  assert (HnQ : (0 < inject_Z n)%Q).
  { change (inject_Z 0 < inject_Z n)%Q. rewrite <- Zlt_Qlt. exact Hn. }
  assert (HwQ : (0 <= inject_Z wins)%Q).
  { change (inject_Z 0 <= inject_Z wins)%Q. rewrite <- Zle_Qle. exact Hw. }
  assert (HtQ : (0 <= inject_Z ties)%Q).
  { change (inject_Z 0 <= inject_Z ties)%Q. rewrite <- Zle_Qle. exact Ht. }
  assert (HsQ : (inject_Z wins + inject_Z ties <= inject_Z n)%Q).
  { rewrite <- inject_Z_plus, <- Zle_Qle. exact Hsum. }
  split.
  - apply Qle_shift_div_l; [exact HnQ|]. lra.
  - apply Qle_shift_div_r; [exact HnQ|]. lra.
Qed.
(** ** The sample random source is lawful *)

Lemma cutting_source_lawful : LawfulShuffle Sample.cutting_source.
Proof.
  intros l s. cbn. rewrite Permutation_app_comm. by rewrite take_drop.
Qed.

(** ** Simulator: rejected requests *)

(** C7.  [simulate_equity] raises a [ValueError], before any trial runs
    and without touching the random source, whenever the hero does not
    hold exactly two cards, or the board has more than five cards, or
    fewer than one opponent is requested, or a card occurs twice among
    hero cards and board, or the 52-card deck without those cards holds
    fewer than (5 - board size) + 2 * num_opponents cards. *)
Theorem simulate_equity_rejects {HR : HandRankOracle} {RS : RandomSource}
        (self : MonteCarloSimulator) (hero board : list Card) (n : Z) (s : rng_state) :
  length hero <> 2%nat
  \/ (5 < length board)%nat
  \/ n < 1
  \/ ~ NoDup (hero ++ board)
  \/ 52 - Z.of_nat (length (hero ++ board)) < 5 - Z.of_nat (length board) + 2 * n ->
  exists msg, simulate_equity self hero board n s = (Err (ValueError msg), s).
Proof.
  intros Hbad. pose proof (check_inputs_spec hero board n) as Hspec.
  unfold simulate_equity, bind, lift.
  destruct (check_inputs hero board n) as [deck|e].
  - exfalso. destruct Hspec as (Hh & Hb & Hn & Hnd & _ & Hlen & Hdeck).
    destruct Hbad as [H|[H|[H|[H|H]]]]; try contradiction; lia.
  - destruct Hspec as [[msg ->] _]. eauto.
Qed.

Lemma simulate_equity_rejects_witness :
  exists msg,
    simulate_equity (HR:=Sample.reference_oracle) (RS:=Sample.cutting_source)
      {| num_simulations := 3 |} [mkCard ACE SPADES] [] 1 (7 : Z)
    = (Err (ValueError msg), (7 : Z)).
Proof.
  apply (simulate_equity_rejects (HR:=Sample.reference_oracle)
           (RS:=Sample.cutting_source)).
  left. cbn. lia.
Defined.

(** ** Simulator: the equity of accepted requests *)

(** C2.  For a well-formed request (two hero cards, at most five board
    cards, no card twice, at least one opponent, enough cards left in the
    deck) every trial ends normally and [simulate_equity] returns
    (wins + 0.5 * ties) / num_simulations for the wins and ties counted
    over the trials; wins, ties and losses are non-negative and add up to
    num_simulations, and the equity lies between 0 and 1. *)
Theorem simulate_equity_tallies {HR : HandRankOracle} {RS : RandomSource}
        {L : LawfulShuffle RS}
        (trials : Z) (self : MonteCarloSimulator)
        (hero board : list Card) (n : Z) (s : rng_state) :
  MonteCarloSimulator_new trials = Ok self ->
  length hero = 2%nat ->
  (length board <= 5)%nat ->
  NoDup (hero ++ board) ->
  1 <= n ->
  5 - Z.of_nat (length board) + 2 * n <= 52 - Z.of_nat (length (hero ++ board)) ->
  exists (outs : list outcome) (s' : rng_state),
    trial_log (Z.to_nat trials) hero board n (remaining (hero ++ board)) s = Ok <$> outs
    /\ Z.of_nat (length outs) = trials
    /\ simulate_equity self hero board n s
       = (Ok ((inject_Z (tally Win outs) + 0.5 * inject_Z (tally Tie outs))
              / inject_Z trials)%Q, s')
    /\ 0 <= tally Win outs /\ 0 <= tally Tie outs /\ 0 <= tally Loss outs
    /\ tally Win outs + tally Tie outs + tally Loss outs = trials
    /\ (0 <= (inject_Z (tally Win outs) + 0.5 * inject_Z (tally Tie outs))
             / inject_Z trials <= 1)%Q.
Proof.
  intros Hnew Hh Hb Hnd Hn Hdeck.
  unfold MonteCarloSimulator_new in Hnew.
  destruct (trials <=? 0) eqn:Et; [discriminate|]. apply Z.leb_gt in Et.
  injection Hnew as <-. cbn [num_simulations].
  pose proof (remaining_length _ Hnd) as Hlen.
  destruct (trial_log_ok (Z.to_nat trials) hero board n Hh Hb Hnd Hn) with (s := s)
    as (outs & Hlog & Hl); [lia|].
  destruct (run_trials_log _ _ _ _ _ _ 0 0 s Hlog) as [s' Hrun].
  pose proof (tally_total outs) as Htot.
  pose proof (tally_nonneg Win outs). pose proof (tally_nonneg Tie outs).
  pose proof (tally_nonneg Loss outs).
  exists outs, s'. split; [exact Hlog|]. split; [lia|]. split.
  { pose proof (check_inputs_spec hero board n) as Hspec.
    unfold simulate_equity, bind, lift.
    destruct (check_inputs hero board n) as [deck|e].
    - destruct Hspec as (_ & _ & _ & _ & -> & _). cbn [num_simulations].
      rewrite Hrun. reflexivity.
    - exfalso. destruct Hspec as [_ [H'|[H'|[H'|[H'|H']]]]]; try contradiction; lia. }
  repeat split; try lia; apply (equity_of_bounds (tally Win outs) (tally Tie outs) trials);
    lia.
Qed.

Lemma simulate_equity_tallies_witness :
  exists (outs : list outcome) (s' : Z),
    trial_log (HR:=Sample.reference_oracle) (RS:=Sample.cutting_source)
      (Z.to_nat 3) [mkCard ACE SPADES; mkCard KING SPADES] [] 1
      (remaining ([mkCard ACE SPADES; mkCard KING SPADES] ++ [])) (7 : Z) = Ok <$> outs
    /\ Z.of_nat (length outs) = 3
    /\ simulate_equity (HR:=Sample.reference_oracle) (RS:=Sample.cutting_source)
         {| num_simulations := 3 |} [mkCard ACE SPADES; mkCard KING SPADES] [] 1 (7 : Z)
       = (Ok ((inject_Z (tally Win outs) + 0.5 * inject_Z (tally Tie outs))
              / inject_Z 3)%Q, s')
    /\ 0 <= tally Win outs /\ 0 <= tally Tie outs /\ 0 <= tally Loss outs
    /\ tally Win outs + tally Tie outs + tally Loss outs = 3
    /\ (0 <= (inject_Z (tally Win outs) + 0.5 * inject_Z (tally Tie outs))
             / inject_Z 3 <= 1)%Q.
Proof.
  apply (simulate_equity_tallies (HR:=Sample.reference_oracle)
           (RS:=Sample.cutting_source) (L:=cutting_source_lawful) 3).
  - reflexivity.
  - reflexivity.
  - cbn. lia.
  - apply (bool_decide_unpack _). vm_compute. exact I.
  - lia.
  - cbn. lia.
Defined.
(** ** Stacks and odds inside the engine *)

Lemma pymin_list_le (xs : list Q) (x : Q) : (pymin_list x xs <= x)%Q.
Proof.
  unfold pymin_list. revert x. induction xs as [|y xs IH]; intros x; cbn [fold_left].
  - apply Qle_refl.
  - eapply Qle_trans; [apply IH|apply pymin_le_l].
Qed.

Lemma pymin_list_nonneg (xs : list Q) (x : Q) :
  (0 <= x)%Q -> Forall (fun v => (0 <= v)%Q) xs -> (0 <= pymin_list x xs)%Q.
Proof.
  unfold pymin_list. revert x. induction xs as [|y xs IH]; intros x Hx Hxs; cbn [fold_left].
  - exact Hx.
  - inversion Hxs; subst. apply IH; [|assumption]. by apply pymin_glb.
Qed.

Lemma effective_stack_bounds (gs : GameState) :
  state_facts gs -> (0 <= effective_stack gs <= your_stack gs)%Q.
Proof.
  intros [_ _ _ _ _ Hs Ho _ _]. split.
  - by apply pymin_list_nonneg.
  - apply pymin_list_le.
Qed.

Lemma pymax_0_nonneg (a : Q) : (0 <= pymax a 0)%Q.
Proof. apply pymax_ge_r. Qed.

Lemma calculate_pot_odds_valid (gs : GameState) :
  state_facts gs -> calculate_pot_odds gs = Ok (pot_odds gs).
Proof.
  intros [_ _ _ Hpot bet_nonneg0 _ _ _ _]. unfold calculate_pot_odds, pot_odds.
  rewrite !pymax_nonneg_id by assumption.
  destruct (Qeqb (bet_to_call gs) 0) eqn:Ez.
  - apply Qeqb_true in Ez.
    assert (Hle : Qleb (bet_to_call gs) 0 = true) by (apply Qleb_true; lra).
    by rewrite Hle.
  - apply Qeqb_false in Ez.
    assert (Hb : (0 < bet_to_call gs)%Q).
    { apply Qle_lt_or_eq in bet_nonneg0 as [H|H]; [exact H|]. exfalso. apply Ez. by symmetry. }
    assert (Hd : (0 < pot_size gs + bet_to_call gs)%Q) by lra.
    by rewrite (proj2 (Qleb_false _ _) Hb), (proj2 (Qleb_false _ _) Hd).
Qed.

Lemma pot_odds_pos (gs : GameState) :
  state_facts gs -> (0 < bet_to_call gs)%Q -> (0 < pot_odds gs)%Q.
Proof.
  intros [_ _ _ Hpot _ _ _ _ _] Hb. unfold pot_odds.
  assert (Hd : (0 < pot_size gs + bet_to_call gs)%Q) by lra.
  rewrite (proj2 (Qleb_false _ _) Hb), (proj2 (Qleb_false _ _) Hd).
  apply Qlt_shift_div_l; [exact Hd|]. lra.
Qed.

Lemma calculate_implied_odds_total (gs : GameState) (future_bets : Q) :
  (0 <= future_bets)%Q -> exists q, calculate_implied_odds gs future_bets = Ok q.
Proof.
  intros Hf. unfold calculate_implied_odds.
  rewrite (proj2 (Qltb_false _ _) Hf).
  pose proof (pymax_0_nonneg (bet_to_call gs)) as Hb.
  pose proof (pymax_0_nonneg (pot_size gs)) as Hp.
  destruct (Qeqb (pymax (bet_to_call gs) 0) 0) eqn:Ez; [eauto|].
  apply Qeqb_false in Ez.
  assert (Hpos : (0 < pymax (bet_to_call gs) 0)%Q).
  { apply Qle_lt_or_eq in Hb as [H|H]; [exact H|]. exfalso. apply Ez. by symmetry. }
  assert (Hd : (0 < pymax (pot_size gs) 0 + future_bets + pymax (bet_to_call gs) 0)%Q) by lra.
  rewrite (proj2 (Qleb_false _ _) Hd). eauto.
Qed.

Lemma multiway_adjustment_nonneg (opponents : Z) : (0 <= _multiway_adjustment opponents)%Q.
Proof.
  unfold _multiway_adjustment.
  assert (H : 0 <= zmax 0 (opponents - 1)).
  { unfold zmax. destruct (0 <? opponents - 1) eqn:E; [apply Z.ltb_lt in E|]; lia. }
  assert (HQ : (0 <= inject_Z (zmax 0 (opponents - 1)))%Q).
  { change (inject_Z 0 <= inject_Z (zmax 0 (opponents - 1)))%Q. by rewrite <- Zle_Qle. }
  apply Qmult_le_0_compat; [exact HQ|]. by compute.
Qed.

(** ** Failures of the simulator are [ValueError]s *)

Section SimulatorErrors.
Context {HR : HandRankOracle} {RS : RandomSource}.

Lemma ensure_no_duplicates_from_err (seen : gset string) (cards : list Card) (e : exn) :
  HandEvaluator.ensure_no_duplicates_from seen cards = Err e -> exists msg, e = ValueError msg.
Proof.
  revert seen. induction cards as [|c cards IH]; intros seen; cbn [HandEvaluator.ensure_no_duplicates_from].
  - discriminate.
  - case_bool_decide; [intros [= <-]; eauto|apply IH].
Qed.

Lemma evaluate_hand_err (hole board : list Card) (e : exn) :
  HandEvaluator.evaluate_hand hole board = Err e -> exists msg, e = ValueError msg.
Proof.
  unfold HandEvaluator.evaluate_hand, HandEvaluator._ensure_no_duplicates.
  destruct (negb _); [intros [= <-]; eauto|].
  destruct (_ <? _)%nat; [intros [= <-]; eauto|].
  destruct (HandEvaluator.ensure_no_duplicates_from ∅ (hole ++ board)) eqn:E; cbn [rbind];
    [discriminate|].
  intros [= <-]. by apply ensure_no_duplicates_from_err in E.
Qed.

Lemma deal_opponents_err (n : nat) (deck sim_board : list Card) (acc : list Z) (e : exn) :
  deal_opponents n deck sim_board acc = Err e -> exists msg, e = ValueError msg.
Proof.
  revert deck acc. induction n as [|n IH]; intros deck acc; cbn [deal_opponents].
  - discriminate.
  - destruct (_ <? _)%nat; [intros [= <-]; eauto|].
    destruct (HandEvaluator.evaluate_hand _ _) eqn:E; cbn [rbind].
    + apply IH.
    + intros [= <-]. by apply evaluate_hand_err in E.
Qed.

Lemma play_trial_err (hero board deck : list Card) (n : Z) (e : exn) :
  play_trial hero board n deck = Err e -> exists msg, e = ValueError msg.
Proof.
  unfold play_trial.
  destruct (if 0 <? _ then _ else _) as [sim_board deck'].
  destruct (HandEvaluator.evaluate_hand hero sim_board) eqn:E1; cbn [rbind].
  2:{ intros [= <-]. by apply evaluate_hand_err in E1. }
  destruct (deal_opponents _ _ _ _) as [ranks|e'] eqn:E2; cbn [rbind].
  2:{ intros [= <-]. by apply deal_opponents_err in E2. }
  destruct ranks as [|r ranks]; cbn [min_rank rbind].
  - intros [= <-]; eauto.
  - destruct (_ <? _); [discriminate|]. destruct (_ =? _); discriminate.
Qed.

Lemma run_trials_err (k : nat) (hero board deck : list Card) (n wins ties : Z)
      (s s' : rng_state) (e : exn) :
  run_trials k hero board n deck wins ties s = (Err e, s') -> exists msg, e = ValueError msg.
Proof.
  revert wins ties s. induction k as [|k IH]; intros wins ties s; cbn [run_trials].
  - discriminate.
  - destruct (rng_shuffle deck s) as [d s1].
    destruct (play_trial hero board n d) as [[]|e'] eqn:E; try apply IH.
    intros [= <- _]. by apply play_trial_err in E.
Qed.

Lemma simulate_equity_err (self : MonteCarloSimulator) (hero board : list Card) (n : Z)
      (s s' : rng_state) (e : exn) :
  simulate_equity self hero board n s = (Err e, s') -> exists msg, e = ValueError msg.
Proof.
  unfold simulate_equity, bind, lift, ret.
  pose proof (check_inputs_spec hero board n) as Hspec.
  destruct (check_inputs hero board n) as [deck|e'].
  - destruct (run_trials _ _ _ _ _ _ _ s) as [[t|e'] s1] eqn:E; [discriminate|].
    intros [= <- _]. by apply run_trials_err in E.
  - intros [= <- _]. by destruct Hspec as [? _].
Qed.

(** [_estimate_equity] always produces a number: the simulator's result
    when it has one, and 0 when it fails. *)
Lemma estimate_equity_cases (self : Engine) (gs : GameState) (s : rng_state) :
  (exists q s', simulate_equity (monte_carlo self) (hole_cards gs) (board gs)
                  (zmax 1 (active_opponents gs)) s = (Ok q, s')
                /\ _estimate_equity self gs s = (Ok q, s'))
  \/ (exists msg s', simulate_equity (monte_carlo self) (hole_cards gs) (board gs)
                       (zmax 1 (active_opponents gs)) s = (Err (ValueError msg), s')
                     /\ _estimate_equity self gs s = (Ok 0%Q, s')).
Proof.
  unfold _estimate_equity, catch_value_error, ret.
  destruct (simulate_equity _ _ _ _ s) as [[q|e] s'] eqn:E.
  - left. eauto.
  - right. destruct (simulate_equity_err _ _ _ _ _ _ _ E) as [msg ->]. eauto.
Qed.

Lemma estimate_equity_total (self : Engine) (gs : GameState) (s : rng_state) :
  exists q s', _estimate_equity self gs s = (Ok q, s').
Proof.
  destruct (estimate_equity_cases self gs s) as [(q & s' & _ & H)|(m & s' & _ & H)]; eauto.
Qed.
End SimulatorErrors.
(** ** Shape of the engine's answers *)

Lemma snoc_not_nil {A} (l : list A) (x : A) : l ++ [x] <> [].
Proof. destruct l; discriminate. Qed.

Lemma short_stack_adjustment_short (gs : GameState) (act : ActionType) (amt : Q)
      (rs : list line) :
  short_stacked gs = true ->
  action (_short_stack_adjustment gs act amt rs) = ALL_IN
  /\ amount (_short_stack_adjustment gs act amt rs) = effective_stack gs
  /\ reasoning (_short_stack_adjustment gs act amt rs) <> [].
Proof.
  intros H. unfold _short_stack_adjustment. rewrite H. cbn [action amount reasoning].
  auto using snoc_not_nil.
Qed.

Lemma short_stack_adjustment_deep (gs : GameState) (act : ActionType) (amt : Q)
      (rs : list line) :
  short_stacked gs = false ->
  _short_stack_adjustment gs act amt rs = mkDecision act (pymin amt (your_stack gs)) rs.
Proof. intros H. unfold _short_stack_adjustment. by rewrite H. Qed.

Lemma infer_big_blind_pos (gs : GameState) : (0 < _infer_big_blind gs)%Q.
Proof.
  unfold _infer_big_blind. destruct (Qltb 0 (pot_size gs)); [|reflexivity].
  eapply Qlt_le_trans; [|apply pymax_ge_l]. reflexivity.
Qed.

Lemma suggest_3bet_nonneg (gs : GameState) :
  state_facts gs -> (0 <= _suggest_3bet_size gs)%Q.
Proof.
  intros [_ _ _ _ Hb Hs _ _ _]. unfold _suggest_3bet_size.
  pose proof (infer_big_blind_pos gs).
  apply pymin_glb; [|exact Hs]. destruct (Qltb 0 (bet_to_call gs)); lra.
Qed.

Lemma suggest_open_raise_bounds (gs : GameState) :
  state_facts gs -> (0 <= _suggest_open_raise gs <= your_stack gs)%Q.
Proof.
  intros [_ _ _ _ _ Hs _ _ _]. unfold _suggest_open_raise.
  pose proof (infer_big_blind_pos gs). split; [|apply pymin_le_r].
  apply pymin_glb; [lra|exact Hs].
Qed.

Lemma suggest_value_bet_nonneg (gs : GameState) :
  state_facts gs -> (0 <= _suggest_value_bet gs)%Q.
Proof.
  intros [_ _ _ Hp _ Hs _ _ _]. unfold _suggest_value_bet.
  apply pymin_glb; [|exact Hs].
  eapply Qle_trans; [|apply pymax_ge_l]. lra.
Qed.

Lemma suggest_raise_size_nonneg (gs : GameState) :
  state_facts gs -> (0 <= _suggest_raise_size gs)%Q.
Proof.
  intros [_ _ _ Hp Hb Hs _ _ _]. unfold _suggest_raise_size.
  apply pymin_glb; [|exact Hs].
  eapply Qle_trans; [|apply pymax_ge_l]. lra.
Qed.

Lemma call_amount_nonneg (gs : GameState) :
  state_facts gs -> (0 <= pymin (bet_to_call gs) (your_stack gs))%Q.
Proof. intros [_ _ _ _ Hb Hs _ _ _]. by apply pymin_glb. Qed.

Section EngineShape.
Context {HR : HandRankOracle} {RS : RandomSource}.

Lemma recommend_postflop_shape (self : Engine) (gs : GameState) (s : rng_state) :
  state_facts gs ->
  exists r s', _recommend_postflop self gs s = (Ok r, s') /\ (adjusted gs r \/ passive r).
Proof.
  intros Hf. destruct (estimate_equity_total self gs s) as (eq & s' & Heq).
  unfold _recommend_postflop, bind. rewrite Heq.
  rewrite (calculate_pot_odds_valid gs Hf).
  assert (Hpo : (if Qltb 0 (bet_to_call gs) then lift (Ok (pot_odds gs)) else ret 0%Q) s'
                = (Ok (if Qltb 0 (bet_to_call gs) then pot_odds gs else 0%Q), s')).
  { by destruct (Qltb 0 (bet_to_call gs)). }
  rewrite Hpo. clear Hpo. unfold ret.
  pose proof (suggest_value_bet_nonneg gs Hf). pose proof (suggest_raise_size_nonneg gs Hf).
  pose proof (call_amount_nonneg gs Hf).
  repeat match goal with
         | |- context [if ?b then _ else _] =>
             lazymatch b with
             | Qltb 0 (bet_to_call gs) => fail
             | (_ <? _)%nat && _ => fail
             | _ => destruct b eqn:?
             end
         end;
    eexists _, _; (split; [reflexivity|]);
    first [ left; eexists _, _, _; split; [reflexivity|];
            split; [tauto|]; split; [first [assumption | apply Qlt_le_weak, Qltb_true; assumption]|];
            apply snoc_not_nil
          | right; eexists; split; [|first [left; reflexivity | right; reflexivity]];
            apply snoc_not_nil ].
Qed.
End EngineShape.
Lemma opening_ranges_total (p : Position) : exists range, OPENING_RANGES p = Ok range.
Proof.
  assert (H : is_ok (OPENING_RANGES p) = true) by (destruct p; vm_compute; reflexivity).
  destruct (OPENING_RANGES p) as [range|e]; [eauto|discriminate].
Qed.

Lemma normalize_combo_literal_label (c1 c2 : Card) :
  _normalize_combo_literal (canonical_label c1 c2) = Ok (canonical_label c1 c2).
Proof. destruct c1 as [[] []], c2 as [[] []]; vm_compute; reflexivity. Qed.

Lemma should_open_total (c1 c2 : Card) (p : Position) :
  exists opens, should_open (canonical_label c1 c2) p = Ok opens.
Proof.
  unfold should_open. destruct (opening_ranges_total p) as [range ->].
  cbn [rbind]. rewrite normalize_combo_literal_label. cbn [rbind]. eauto.
Qed.

Section EngineShapePreflop.
Context {HR : HandRankOracle} {RS : RandomSource}.

Lemma recommend_preflop_shape (self : Engine) (gs : GameState) (s : rng_state) :
  state_facts gs ->
  length (hole_cards gs) = 2%nat ->
  exists r s',
    _recommend_preflop self gs s = (Ok r, s')
    /\ (adjusted gs r \/ passive r
        \/ exists rs c1 c2,
             rs <> [] /\ (bet_to_call gs == 0)%Q
             /\ hole_cards gs = [c1; c2]
             /\ should_open (canonical_label c1 c2) (your_position gs) = Ok true
             /\ r = mkDecision RAISE (_suggest_open_raise gs) rs).
Proof.
  intros Hf Hlen.
  destruct (hole_cards gs) as [|c1 [|c2 [|c3 rest]]] eqn:Hhole; try discriminate.
  unfold _recommend_preflop. rewrite Hhole.
  unfold bind at 1. unfold lift at 1. rewrite normalize_hand_label.
  unfold bind at 1. rewrite (calculate_pot_odds_valid gs Hf).
  assert (Hpo : (if Qltb 0 (bet_to_call gs) then lift (Ok (pot_odds gs)) else ret 0%Q) s
                = (Ok (if Qltb 0 (bet_to_call gs) then pot_odds gs else 0%Q), s)).
  { by destruct (Qltb 0 (bet_to_call gs)). }
  rewrite Hpo. clear Hpo.
  pose proof (suggest_3bet_nonneg gs Hf) as H3.
  pose proof (call_amount_nonneg gs Hf) as Hc.
  destruct (Qeqb (bet_to_call gs) 0) eqn:Ebet.
  { apply Qeqb_true in Ebet.
    destruct (should_open_total c1 c2 (your_position gs)) as [opens Ho].
    unfold bind, lift, ret. rewrite Ho. destruct opens.
    - eexists _, _. split; [reflexivity|]. right; right.
      eexists _, c1, c2. split; [apply snoc_not_nil|]. split; [exact Ebet|].
      split; [reflexivity|]. split; [exact Ho|reflexivity].
    - eexists _, _. split; [reflexivity|]. right; left.
      eexists. split; [|left; reflexivity]. apply snoc_not_nil. }
  destruct (bool_decide (upper (canonical_label c1 c2) ∈ PREMIUM_HANDS)) eqn:Eprem.
  { unfold ret. eexists _, _. split; [reflexivity|]. left.
    eexists _, _, _. split; [reflexivity|]. split; [tauto|]. split; [exact H3|].
    apply snoc_not_nil. }
  destruct (estimate_equity_total self gs s) as (eq & s' & Heq).
  unfold bind at 1. rewrite Heq.
  destruct (calculate_implied_odds_total gs (pot_size gs * 0.5)%Q) as [io Hio].
  { destruct Hf as [_ _ _ Hp _ _ _ _ _]. lra. }
  unfold bind, lift, ret. rewrite Hio.
  repeat match goal with
         | |- context [if ?b then _ else _] =>
             lazymatch b with
             | Qltb 0 (bet_to_call gs) => fail
             | _ => destruct b eqn:?
             end
         end;
    eexists _, _; (split; [reflexivity|]);
    first [ left; eexists _, _, _; split; [reflexivity|];
            split; [tauto|]; split; [assumption|]; apply snoc_not_nil
          | right; left; eexists; split; [|left; reflexivity]; apply snoc_not_nil ].
Qed.

(** [recommend_action] on a validated state with two hole cards. *)
Lemma recommend_action_shape (self : Engine) (gs : GameState) (s : rng_state) :
  state_facts gs ->
  length (hole_cards gs) = 2%nat ->
  exists r s',
    recommend_action self gs s = (Ok (action r, amount r, reasoning r), s')
    /\ (adjusted gs r \/ passive r
        \/ exists rs c1 c2,
             rs <> [] /\ street gs = PREFLOP /\ (bet_to_call gs == 0)%Q
             /\ hole_cards gs = [c1; c2]
             /\ should_open (canonical_label c1 c2) (your_position gs) = Ok true
             /\ r = mkDecision RAISE (_suggest_open_raise gs) rs).
Proof.
  intros Hf Hlen. unfold recommend_action. rewrite Hlen. cbn [Nat.eqb negb].
  unfold bind, ret. case_bool_decide as Hst.
  - destruct (recommend_preflop_shape self gs s Hf Hlen) as (r & s' & -> & Hr).
    exists r, s'. split; [reflexivity|].
    destruct Hr as [?|[?|(rs & c1 & c2 & ? & ? & ? & ? & ?)]]; [tauto|tauto|].
    right; right. exists rs, c1, c2. tauto.
  - destruct (recommend_postflop_shape self gs s Hf) as (r & s' & -> & Hr).
    exists r, s'. split; [reflexivity|]. tauto.
Qed.
End EngineShapePreflop.
(** ** Properties of the recommendation *)

Lemma sample_states_valid :
  valid_state Sample.short_stack_open /\ valid_state Sample.short_stack_river
  /\ valid_state Sample.deep_river /\ valid_state Sample.crowded_flop.
Proof. repeat split; vm_compute; reflexivity. Qed.

Lemma decision_bounds (gs : GameState) (r : DecisionResult) :
  state_facts gs ->
  adjusted gs r \/ passive r
  \/ (exists rs, rs <> [] /\ r = mkDecision RAISE (_suggest_open_raise gs) rs) ->
  (0 <= amount r <= your_stack gs)%Q /\ reasoning r <> [].
Proof.
  intros Hf Hr. pose proof (effective_stack_bounds gs Hf) as He.
  pose proof Hf as [_ _ _ _ _ Hs _ _ _].
  destruct Hr as [(act & amt & rs & -> & _ & Hamt & Hrs)|[(rs & Hrs & [-> | ->])|(rs & Hrs & ->)]].
  - destruct (short_stacked gs) eqn:Es.
    + destruct (short_stack_adjustment_short gs act amt rs Es) as (_ & -> & ?). tauto.
    + rewrite (short_stack_adjustment_deep gs act amt rs Es). cbn [amount reasoning].
      split; [|exact Hrs]. split; [by apply pymin_glb|apply pymin_le_r].
  - cbn [amount reasoning]. split; [|exact Hrs]. split; [apply Qle_refl|exact Hs].
  - cbn [amount reasoning]. split; [|exact Hrs]. split; [apply Qle_refl|exact Hs].
  - cbn [amount reasoning]. split; [|exact Hrs]. apply suggest_open_raise_bounds, Hf.
Qed.

(** C8.  On a validated state with two hole cards [recommend_action]
    returns a triple whose action is one of the six action kinds, whose
    amount is non-negative and at most the hero's stack, and whose
    reasoning list is not empty. *)
Theorem recommend_action_well_formed {HR : HandRankOracle} {RS : RandomSource}
        (self : Engine) (gs : GameState) (s : rng_state) :
  valid_state gs ->
  length (hole_cards gs) = 2%nat ->
  exists (a : ActionType) (amt : Q) (rs : list line) (s' : rng_state),
    recommend_action self gs s = (Ok (a, amt, rs), s')
    /\ a ∈ [FOLD; CHECK; CALL; BET; RAISE; ALL_IN]
    /\ (0 <= amt <= your_stack gs)%Q
    /\ (1 <= length rs)%nat.
Proof.
  intros Hv Hlen. apply valid_state_facts in Hv.
  destruct (recommend_action_shape self gs s Hv Hlen) as (r & s' & Hrec & Hr).
  exists (action r), (amount r), (reasoning r), s'. split; [exact Hrec|].
  split; [apply list_elem_of_In; destruct (action r); cbn; tauto|].
  destruct (decision_bounds gs r Hv) as [Hb Hne].
  { destruct Hr as [?|[?|(rs & c1 & c2 & ? & _ & _ & _ & _ & ?)]]; eauto 6. }
  split; [exact Hb|]. destruct (reasoning r); [contradiction|cbn; lia].
Qed.

Lemma recommend_action_well_formed_witness :
  exists (a : ActionType) (amt : Q) (rs : list line) (s' : Z),
    recommend_action (HR:=Sample.reference_oracle) (RS:=Sample.cutting_source)
      Sample.engine3 Sample.deep_river (7 : Z) = (Ok (a, amt, rs), s')
    /\ a ∈ [FOLD; CHECK; CALL; BET; RAISE; ALL_IN]
    /\ (0 <= amt <= your_stack Sample.deep_river)%Q
    /\ (1 <= length rs)%nat.
Proof.
  apply (recommend_action_well_formed (HR:=Sample.reference_oracle)
           (RS:=Sample.cutting_source)).
  - vm_compute. reflexivity.
  - reflexivity.
Defined.

(** C4.  A state whose hole-card list does not hold exactly two cards
    makes [recommend_action] raise a [ValueError] without producing a
    recommendation.  With exactly two hole cards the call returns a
    recommendation, and whenever the simulator raises, the engine's
    equity estimate is 0 and no error reaches the caller. *)
Theorem recommend_action_failures {HR : HandRankOracle} {RS : RandomSource}
        (self : Engine) (gs : GameState) (s : rng_state) :
  valid_state gs ->
  (length (hole_cards gs) <> 2%nat ->
     exists msg, recommend_action self gs s = (Err (ValueError msg), s))
  /\ (length (hole_cards gs) = 2%nat ->
        (exists r s', recommend_action self gs s = (Ok r, s'))
        /\ (forall e s1,
               simulate_equity (monte_carlo self) (hole_cards gs) (board gs)
                               (zmax 1 (active_opponents gs)) s = (Err e, s1) ->
               _estimate_equity self gs s = (Ok 0%Q, s1))).
Proof.
  intros Hv. apply valid_state_facts in Hv. split.
  - intros Hlen. unfold recommend_action, raise.
    apply Nat.eqb_neq in Hlen. rewrite Hlen. cbn [negb]. eauto.
  - intros Hlen. split.
    + destruct (recommend_action_shape self gs s Hv Hlen) as (r & s' & Hrec & _). eauto.
    + intros e s1 Hsim.
      destruct (estimate_equity_cases self gs s)
        as [(q & s' & Hs & _)|(msg & s' & Hs & He)]; [congruence|].
      rewrite Hs in Hsim. injection Hsim as _ <-. exact He.
Qed.

Lemma recommend_action_failures_witness :
  (length (hole_cards Sample.crowded_flop) <> 2%nat ->
     exists msg,
       recommend_action (HR:=Sample.reference_oracle) (RS:=Sample.cutting_source)
         Sample.engine3 Sample.crowded_flop (7 : Z) = (Err (ValueError msg), (7 : Z)))
  /\ (length (hole_cards Sample.crowded_flop) = 2%nat ->
        (exists r s',
            recommend_action (HR:=Sample.reference_oracle) (RS:=Sample.cutting_source)
              Sample.engine3 Sample.crowded_flop (7 : Z) = (Ok r, s'))
        /\ (forall e s1,
               simulate_equity (HR:=Sample.reference_oracle) (RS:=Sample.cutting_source)
                 (monte_carlo Sample.engine3) (hole_cards Sample.crowded_flop)
                 (board Sample.crowded_flop)
                 (zmax 1 (active_opponents Sample.crowded_flop)) (7 : Z) = (Err e, s1) ->
               _estimate_equity (HR:=Sample.reference_oracle) (RS:=Sample.cutting_source)
                 Sample.engine3 Sample.crowded_flop (7 : Z) = (Ok 0%Q, s1))).
Proof.
  apply (recommend_action_failures (HR:=Sample.reference_oracle)
           (RS:=Sample.cutting_source)).
  vm_compute. reflexivity.
Defined.
Section PostflopFacingBet.
Context {HR : HandRankOracle} {RS : RandomSource}.

Lemma recommend_action_postflop (self : Engine) (gs : GameState) (s s' : rng_state)
      (r : DecisionResult) :
  length (hole_cards gs) = 2%nat -> street gs <> PREFLOP ->
  _recommend_postflop self gs s = (Ok r, s') ->
  recommend_action self gs s = (Ok (action r, amount r, reasoning r), s').
Proof.
  intros Hlen Hst Hr. unfold recommend_action. rewrite Hlen. cbn [Nat.eqb negb].
  rewrite bool_decide_eq_false_2 by exact Hst. unfold bind, ret. by rewrite Hr.
Qed.

(** The three ways out of the post-flop branch when a bet is owed. *)
Lemma recommend_postflop_facing_bet (self : Engine) (gs : GameState) (s s' : rng_state)
      (eq : Q) :
  state_facts gs -> (0 < bet_to_call gs)%Q ->
  _estimate_equity self gs s = (Ok eq, s') ->
  exists r rs,
    _recommend_postflop self gs s = (Ok r, s') /\ rs <> []
    /\ ((eq < pot_odds gs * 1.15 + _multiway_adjustment (active_opponents gs)
         /\ r = mkDecision FOLD 0 rs)%Q
        \/ (pot_odds gs * 1.15 + _multiway_adjustment (active_opponents gs) <= eq
            /\ 0.70 + _multiway_adjustment (active_opponents gs) <= eq
            /\ r = _short_stack_adjustment gs RAISE (_suggest_raise_size gs) rs)%Q
        \/ (pot_odds gs * 1.15 + _multiway_adjustment (active_opponents gs) <= eq
            /\ eq < 0.70 + _multiway_adjustment (active_opponents gs)
            /\ r = _short_stack_adjustment gs CALL
                     (pymin (bet_to_call gs) (your_stack gs)) rs)%Q).
Proof.
  intros Hf Hb Heq.
  unfold _recommend_postflop, bind. rewrite Heq.
  rewrite (calculate_pot_odds_valid gs Hf).
  rewrite (proj2 (Qltb_true _ _) Hb). unfold lift, ret.
  assert (Hne : Qeqb (bet_to_call gs) 0 = false).
  { apply Qeqb_false. intros H0. rewrite H0 in Hb. exact (Qlt_irrefl _ Hb). }
  rewrite Hne.
  destruct (Qleb (pot_odds gs * 1.15 + _multiway_adjustment (active_opponents gs)) eq)
    eqn:Ereq.
  - apply Qleb_true in Ereq.
    destruct (Qleb (0.70 + _multiway_adjustment (active_opponents gs)) eq) eqn:Ebar.
    + apply Qleb_true in Ebar. eexists _, _. split; [reflexivity|].
      split; [apply snoc_not_nil|]. right; left. auto.
    + apply Qleb_false in Ebar. eexists _, _. split; [reflexivity|].
      split; [apply snoc_not_nil|]. right; right. auto.
  - apply Qleb_false in Ereq. eexists _, _. split; [reflexivity|].
    split; [apply snoc_not_nil|]. left. auto.
Qed.
End PostflopFacingBet.


Lemma zmax_spec (a b : Z) : zmax a b = Z.max a b.
Proof. unfold zmax. destruct (a <? b) eqn:E; [apply Z.ltb_lt in E|apply Z.ltb_ge in E]; lia. Qed.

(** ** C10 *)

(** C10.  On a validated post-flop state with two hole cards and a bet
    to call, if the simulator raises, the substituted equity 0 is below
    the strictly positive required equity, so [recommend_action] returns
    a fold of amount 0 and the caller sees no error. *)
Theorem simulator_failure_folds {HR : HandRankOracle} {RS : RandomSource}
        (self : Engine) (gs : GameState) (s s1 : rng_state) (e : exn) :
  valid_state gs ->
  length (hole_cards gs) = 2%nat ->
  street gs <> PREFLOP ->
  (0 < bet_to_call gs)%Q ->
  simulate_equity (monte_carlo self) (hole_cards gs) (board gs)
                  (zmax 1 (active_opponents gs)) s = (Err e, s1) ->
  (0 < pot_odds gs * 1.15 + _multiway_adjustment (active_opponents gs))%Q
  /\ exists rs, recommend_action self gs s = (Ok (FOLD, 0%Q, rs), s1).
Proof.
  intros Hv Hlen Hst Hb Hsim. apply valid_state_facts in Hv.
  pose proof (pot_odds_pos gs Hv Hb) as Hpo.
  pose proof (multiway_adjustment_nonneg (active_opponents gs)) as Hadj.
  assert (Hreq : (0 < pot_odds gs * 1.15 + _multiway_adjustment (active_opponents gs))%Q)
    by lra.
  split; [exact Hreq|].
  assert (Heq : _estimate_equity self gs s = (Ok 0%Q, s1)).
  { destruct (estimate_equity_cases self gs s)
      as [(q & s' & Hs & _)|(msg & s' & Hs & He)]; [congruence|].
    rewrite Hs in Hsim. injection Hsim as _ <-. exact He. }
  destruct (recommend_postflop_facing_bet self gs s s1 0 Hv Hb Heq)
    as (r & rs & Hr & _ & [[_ ->]|[(H1 & _)|(H1 & _)]]); try lra.
  exists rs. exact (recommend_action_postflop self gs s s1 _ Hlen Hst Hr).
Qed.

Lemma simulator_failure_folds_witness :
  (0 < pot_odds Sample.crowded_flop * 1.15
       + _multiway_adjustment (active_opponents Sample.crowded_flop))%Q
  /\ exists rs,
      recommend_action (HR:=Sample.reference_oracle) (RS:=Sample.cutting_source)
        Sample.engine3 Sample.crowded_flop (7 : Z) = (Ok (FOLD, 0%Q, rs), (7 : Z)).
Proof.
  apply (simulator_failure_folds (HR:=Sample.reference_oracle)
           (RS:=Sample.cutting_source) Sample.engine3 Sample.crowded_flop 7 7
           (ValueError "Not enough cards remaining to complete the simulation.")).
  - vm_compute. reflexivity.
  - reflexivity.
  - discriminate.
  - reflexivity.
  - vm_compute. reflexivity.
Defined.
(** ** C3 *)



(** ** C1 *)



(** * Further properties of the code *)

(** ** Card text *)

(** X1.  [Card.from_string] inverts [Card.__str__]: every card is read
    back from its own text, also when the text is upper-cased,
    lower-cased or surrounded by blanks; and two cards with the same text
    are the same card. *)
Theorem card_string_round_trip :
  forall c : Card,
    Card_from_string (Card_str c) = Ok c
    /\ Card_from_string (upper (Card_str c)) = Ok c
    /\ Card_from_string (lower (Card_str c)) = Ok c
    /\ Card_from_string (" " +:+ Card_str c +:+ " ") = Ok c
    /\ forall c' : Card, Card_str c' = Card_str c -> c' = c.
Proof.
  intros c. repeat split; try (destruct c as [[] []]; vm_compute; reflexivity).
  intros c' H. by apply (inj Card_str).
Qed.

Lemma Rank_from_string_err (value : string) (e : exn) :
  Rank_from_string value = Err e -> exists msg, e = ValueError msg.
Proof.
  unfold Rank_from_string. destruct (String.eqb _ _); [intros [= <-]; eauto|].
  destruct (List.find _ _); [discriminate|].
  destruct (int _); [|intros [= <-]; eauto].
  destruct (rank_of_value _); [discriminate|intros [= <-]; eauto].
Qed.

Lemma Suit_from_string_err (value : string) (e : exn) :
  Suit_from_string value = Err e -> exists msg, e = ValueError msg.
Proof.
  unfold Suit_from_string. destruct (String.eqb _ _); [intros [= <-]; eauto|].
  destruct (List.find _ _); [discriminate|intros [= <-]; eauto].
Qed.

Lemma card_parse_errors (card_str : string) (e : exn) :
  Card_from_string card_str = Err e -> exists msg, e = ValueError msg.
Proof.
  unfold Card_from_string.
  destruct (String.eqb card_str ""); [intros [= <-]; eauto|].
  destruct (_ <? _)%nat; [intros [= <-]; eauto|].
  destruct (init_last _) as [[rank_part suit_part]|]; [|intros [= <-]; eauto].
  destruct (Rank_from_string rank_part) eqn:Er; cbn [rbind].
  - destruct (Suit_from_string _) eqn:Es; cbn [rbind]; [discriminate|].
    intros [= <-]. by apply Suit_from_string_err in Es.
  - intros [= <-]. by apply Rank_from_string_err in Er.
Qed.

(** X2.  Whatever the text, a failure of [Card.from_string] is a
    [ValueError]; the empty text and every text with fewer than two
    characters once stripped are rejected. *)
Theorem card_from_string_rejections (card_str : string) :
  (forall e, Card_from_string card_str = Err e -> exists msg, e = ValueError msg)
  /\ ((String.length (strip card_str) < 2)%nat ->
      exists msg, Card_from_string card_str = Err (ValueError msg)).
Proof.
  split.
  - intros e. apply card_parse_errors.
  - intros Hlen. unfold Card_from_string.
    destruct (String.eqb card_str ""); [eauto|].
    apply Nat.ltb_lt in Hlen. rewrite Hlen. eauto.
Qed.

(** ** Game state *)

Lemma NoDup_remove_dups_id {A} `{EqDecision A} (l : list A) :
  NoDup l -> remove_dups l = l.
Proof.
  induction 1 as [|x l Hx Hnd IH]; [reflexivity|]. cbn.
  destruct (decide_rel elem_of x l); [contradiction|]. by rewrite IH.
Qed.

Lemma Forall_existsb_Qltb (xs : list Q) :
  Forall (fun v => (0 <= v)%Q) xs -> existsb (fun v => Qltb v 0) xs = false.
Proof.
  induction 1 as [|x xs Hx _ IH]; [reflexivity|]. cbn.
  by rewrite (proj2 (Qltb_false _ _) Hx), IH.
Qed.

(** X3.  The constructor of [GameState] accepts exactly the states with
    at most two hole cards, at most five board cards, no card twice among
    them, non-negative pot, bet, stack and opponent stacks, and 0 <=
    active_opponents <= num_opponents; every rejection is a
    [ValueError]. *)
Theorem post_init_accepts_exactly (gs : GameState) :
  (valid_state gs <-> state_facts gs)
  /\ (forall e, post_init gs = Err e -> exists msg, e = ValueError msg).
Proof.
  split; [split; [apply valid_state_facts|]|].
  - intros [Hh Hb Hnd Hp Hbt Hs Ho Ha Hle].
    unfold valid_state, post_init, validate_cards, validate_no_duplicates,
      validate_numeric_fields, distinct_count.
    rewrite (proj2 (Nat.ltb_ge _ _) Hh), (proj2 (Nat.ltb_ge _ _) Hb). cbn [rbind].
    rewrite (NoDup_remove_dups_id _ Hnd), Nat.eqb_refl. cbn [negb rbind].
    rewrite (Forall_existsb_Qltb [pot_size gs; bet_to_call gs; your_stack gs])
      by (repeat constructor; assumption).
    rewrite (Forall_existsb_Qltb _ Ho).
    rewrite (proj2 (Z.ltb_ge _ _)) by lia. rewrite (proj2 (Z.ltb_ge _ _)) by lia.
    by rewrite (proj2 (Z.ltb_ge _ _)) by lia.
  - intros e. unfold post_init, validate_cards, validate_no_duplicates,
      validate_numeric_fields.
    repeat match goal with
           | |- context [if ?b then _ else _] => destruct b
           | |- rbind (Ok _) _ = _ -> _ => cbn [rbind]
           | |- rbind (Err _) _ = _ -> _ => cbn [rbind]
           end; try discriminate; intros [= <-]; eauto.
Qed.

Lemma pymin_choice (a b : Q) : pymin a b = a \/ pymin a b = b.
Proof. unfold pymin. destruct (Qltb b a); auto. Qed.

(** X4.  [effective_stack] is the smallest stack at the table: it is one
    of the stacks (the hero's or an opponent's) and no stack is below
    it. *)
Theorem effective_stack_is_minimum (gs : GameState) :
  effective_stack gs ∈ your_stack gs :: opponent_stacks gs
  /\ forall x, x ∈ your_stack gs :: opponent_stacks gs -> (effective_stack gs <= x)%Q.
Proof.
  unfold effective_stack, pymin_list.
  generalize (your_stack gs) as x0. induction (opponent_stacks gs) as [|y ys IH]; intros x0.
  - cbn. split; [left|]. intros x Hx. apply list_elem_of_singleton in Hx as ->.
    apply Qle_refl.
  - cbn [fold_left]. destruct (IH (pymin x0 y)) as [Hin Hle]. split.
    + apply elem_of_cons in Hin as [Heq|Hin].
      * rewrite Heq. destruct (pymin_choice x0 y) as [-> | ->]; [left|right; left].
      * right; right. exact Hin.
    + intros x Hx.
      assert (Hm : (fold_left pymin ys (pymin x0 y) <= pymin x0 y)%Q) by (apply Hle; left).
      apply elem_of_cons in Hx as [-> |Hx].
      * eapply Qle_trans; [exact Hm|apply pymin_le_l].
      * apply elem_of_cons in Hx as [-> |Hx].
        -- eapply Qle_trans; [exact Hm|apply pymin_le_r].
        -- apply Hle. by right.
Qed.


(** ** Odds calculator *)

(** X6.  [calculate_pot_odds] never raises, whatever the state: its
    degenerate-denominator error cannot be reached, because the clamped
    bet is positive whenever it is not zero.  The value lies between 0
    and 1. *)
Theorem calculate_pot_odds_never_raises (gs : GameState) :
  exists q, calculate_pot_odds gs = Ok q /\ (0 <= q <= 1)%Q.
Proof.
  unfold calculate_pot_odds.
  pose proof (pymax_0_nonneg (bet_to_call gs)) as Hb.
  pose proof (pymax_0_nonneg (pot_size gs)) as Hp.
  destruct (Qeqb (pymax (bet_to_call gs) 0) 0) eqn:Ez.
  - exists 0%Q. split; [reflexivity|lra].
  - apply Qeqb_false in Ez.
    assert (Hpos : (0 < pymax (bet_to_call gs) 0)%Q).
    { apply Qle_lt_or_eq in Hb as [H|H]; [exact H|]. exfalso. apply Ez. by symmetry. }
    assert (Hd : (0 < pymax (pot_size gs) 0 + pymax (bet_to_call gs) 0)%Q) by lra.
    rewrite (proj2 (Qleb_false _ _) Hd). eexists. split; [reflexivity|]. split.
    + apply Qle_shift_div_l; [exact Hd|]. lra.
    + apply Qle_shift_div_r; [exact Hd|]. lra.
Qed.

(** X7.  On a validated state, implied odds with non-negative future
    bets are defined, lie between 0 and the pot odds, and coincide with
    the pot odds when no future bets are assumed; negative future bets
    are rejected with a [ValueError]. *)
Theorem implied_odds_below_pot_odds (gs : GameState) (future_bets : Q) :
  valid_state gs ->
  ((0 <= future_bets)%Q ->
     exists q, calculate_implied_odds gs future_bets = Ok q
               /\ (0 <= q <= pot_odds gs)%Q
               /\ ((future_bets == 0)%Q -> (q == pot_odds gs)%Q))
  /\ ((future_bets < 0)%Q ->
        exists msg, calculate_implied_odds gs future_bets = Err (ValueError msg)).
Proof.
  intros Hv. apply valid_state_facts in Hv. destruct Hv as [_ _ _ Hp Hb _ _ _ _].
  split.
  - intros Hf. unfold calculate_implied_odds, pot_odds.
    rewrite (proj2 (Qltb_false _ _) Hf), !pymax_nonneg_id by assumption.
    destruct (Qeqb (bet_to_call gs) 0) eqn:Ez.
    + apply Qeqb_true in Ez.
      assert (Hle : Qleb (bet_to_call gs) 0 = true) by (apply Qleb_true; lra).
      rewrite Hle. exists 0%Q. split; [reflexivity|]. split; [lra|reflexivity].
    + apply Qeqb_false in Ez.
      assert (Hpos : (0 < bet_to_call gs)%Q).
      { apply Qle_lt_or_eq in Hb as [H|H]; [exact H|]. exfalso. apply Ez. by symmetry. }
      assert (Hd : (0 < pot_size gs + future_bets + bet_to_call gs)%Q) by lra.
      assert (Hd' : (0 < pot_size gs + bet_to_call gs)%Q) by lra.
      rewrite (proj2 (Qleb_false _ _) Hd), (proj2 (Qleb_false _ _) Hpos),
        (proj2 (Qleb_false _ _) Hd').
      eexists. split; [reflexivity|]. split; [split|].
      * apply Qle_shift_div_l; [exact Hd|]. lra.
      * apply Qle_shift_div_r; [exact Hd|].
        assert (Hq : (bet_to_call gs / (pot_size gs + bet_to_call gs)
                      * (pot_size gs + bet_to_call gs) == bet_to_call gs)%Q)
          by (field; lra).
        assert (Hn : (0 <= bet_to_call gs / (pot_size gs + bet_to_call gs))%Q)
          by (apply Qle_shift_div_l; [exact Hd'|lra]).
        nra.
      * intros H0. rewrite H0, Qplus_0_r. reflexivity.
  - intros Hf. unfold calculate_implied_odds.
    rewrite (proj2 (Qltb_true _ _) Hf). eauto.
Qed.

Lemma implied_odds_below_pot_odds_witness :
  ((0 <= 50)%Q ->
     exists q, calculate_implied_odds Sample.crowded_flop 50 = Ok q
               /\ (0 <= q <= pot_odds Sample.crowded_flop)%Q
               /\ ((50 == 0)%Q -> (q == pot_odds Sample.crowded_flop)%Q))
  /\ ((50 < 0)%Q ->
        exists msg, calculate_implied_odds Sample.crowded_flop 50 = Err (ValueError msg)).
Proof.
  apply (implied_odds_below_pot_odds Sample.crowded_flop 50). vm_compute. reflexivity.
Defined.



(** X9.  The rule of 2 and 4: for a non-negative number of outs,
    [outs_to_percentage] gives outs / 50 with one card to come and twice
    that with two; the result is not capped, so with two cards to come it
    exceeds 1 exactly when there are more than 25 outs.  Negative outs and
    any other number of cards to come are rejected with a [ValueError]. *)
Theorem outs_to_percentage_rule (outs cards_to_come : Z) :
  (0 <= outs ->
     exists q1 q2,
       outs_to_percentage outs 1 = Ok q1 /\ outs_to_percentage outs 2 = Ok q2
       /\ (q1 == inject_Z outs / 50)%Q /\ (q2 == 2 * q1)%Q
       /\ ((1 < q2)%Q <-> 25 < outs))
  /\ (outs < 0 \/ (cards_to_come <> 1 /\ cards_to_come <> 2) ->
        exists msg, outs_to_percentage outs cards_to_come = Err (ValueError msg)).
Proof.
  unfold outs_to_percentage. split.
  - intros Ho. rewrite (proj2 (Z.ltb_ge _ _) Ho). cbn.
    eexists _, _. split; [reflexivity|]. split; [reflexivity|].
    split; [field|]. split; [field|].
    unfold Qlt. cbn. lia.
  - intros [Ho|[H1 H2]].
    + rewrite (proj2 (Z.ltb_lt _ _) Ho). eauto.
    + destruct (outs <? 0); [eauto|].
      rewrite (proj2 (Z.eqb_neq _ _) H1), (proj2 (Z.eqb_neq _ _) H2). cbn. eauto.
Qed.
(** ** Range tables *)

Lemma should_open_true_iff (hand : string) (p : Position) (range : gset string) :
  OPENING_RANGES p = Ok range ->
  (should_open hand p = Ok true
   <-> exists n, _normalize_combo_literal hand = Ok n /\ n ∈ range).
Proof.
  intros Hr. unfold should_open. rewrite Hr. cbn [rbind].
  destruct (_normalize_combo_literal hand) as [n|e]; cbn [rbind].
  - split.
    + intros [= H]. apply bool_decide_eq_true in H. eauto.
    + intros (n' & [= <-] & Hin). by rewrite bool_decide_eq_true_2.
  - split; [discriminate|]. intros (n' & H & _). discriminate.
Qed.

Lemma should_3bet_true_iff (hand : string) (p : Position) (range : gset string) :
  THREE_BET_RANGES p = Ok range ->
  (should_3bet hand p = Ok true
   <-> exists n, _normalize_combo_literal hand = Ok n /\ n ∈ range).
Proof.
  intros Hr. unfold should_3bet. rewrite Hr. cbn [rbind].
  destruct (_normalize_combo_literal hand) as [n|e]; cbn [rbind].
  - split.
    + intros [= H]. apply bool_decide_eq_true in H. eauto.
    + intros (n' & [= <-] & Hin). by rewrite bool_decide_eq_true_2.
  - split; [discriminate|]. intros (n' & H & _). discriminate.
Qed.

(** Inclusion of two range tables entries, as a computation. *)
Lemma range_inclusion (a b : result (gset string)) :
  match a, b with
  | Ok x, Ok y => bool_decide (x ⊆ y)
  | _, _ => false
  end = true ->
  exists x y, a = Ok x /\ b = Ok y /\ x ⊆ y.
Proof.
  destruct a as [x|]; [|discriminate]. destruct b as [y|]; [|discriminate].
  intros H. apply bool_decide_eq_true in H. eauto.
Qed.

(** X10.  The opening ranges widen with position: every hand opened
    under the gun is opened from middle position, every hand opened from
    middle position is opened from the cutoff, and likewise from the
    button to the small blind and from the small blind to the big blind. *)
Theorem opening_ranges_nested (hand : string) :
  (should_open hand UTG = Ok true -> should_open hand MP = Ok true)
  /\ (should_open hand MP = Ok true -> should_open hand CO = Ok true)
  /\ (should_open hand BTN = Ok true -> should_open hand SB = Ok true)
  /\ (should_open hand SB = Ok true -> should_open hand BB = Ok true).
Proof.
  assert (Hstep : forall p q,
             match OPENING_RANGES p, OPENING_RANGES q with
             | Ok x, Ok y => bool_decide (x ⊆ y)
             | _, _ => false
             end = true ->
             should_open hand p = Ok true -> should_open hand q = Ok true).
  { intros p q Hc. apply range_inclusion in Hc as (x & y & Hx & Hy & Hsub).
    rewrite (should_open_true_iff hand p x Hx), (should_open_true_iff hand q y Hy).
    intros (n & Hn & Hin). exists n. split; [exact Hn|]. by apply Hsub. }
  repeat split; apply Hstep; vm_compute; reflexivity.
Qed.

(** X11.  Every hand that is a 3-bet from a position is also an opening
    hand from that position. *)
Theorem three_bet_within_opening (hand : string) (p : Position) :
  should_3bet hand p = Ok true -> should_open hand p = Ok true.
Proof.
  assert (Hc : match THREE_BET_RANGES p, OPENING_RANGES p with
               | Ok x, Ok y => bool_decide (x ⊆ y)
               | _, _ => false
               end = true) by (destruct p; vm_compute; reflexivity).
  apply range_inclusion in Hc as (x & y & Hx & Hy & Hsub).
  rewrite (should_3bet_true_iff hand p x Hx), (should_open_true_iff hand p y Hy).
  intros (n & Hn & Hin). exists n. split; [exact Hn|]. by apply Hsub.
Qed.

Lemma three_bet_within_opening_witness : should_open "AKs" BTN = Ok true.
Proof. apply (three_bet_within_opening "AKs" BTN). vm_compute. reflexivity. Defined.

(** X12.  The hand tiers of the engine, which compare the upper-cased
    combo label, are what their names say: the premium tier is exactly
    AA, KK, QQ and ace-king (suited or not); no hand is in two tiers. *)
Theorem premium_tier_meaning (c1 c2 : Card) :
  (upper (canonical_label c1 c2) ∈ PREMIUM_HANDS
   <-> (rank c1 = rank c2 /\ (rank c1 = ACE \/ rank c1 = KING \/ rank c1 = QUEEN))
       \/ (rank c1 = ACE /\ rank c2 = KING) \/ (rank c1 = KING /\ rank c2 = ACE))
  /\ PREMIUM_HANDS ## STRONG_HANDS
  /\ PREMIUM_HANDS ## SPECULATIVE_HANDS
  /\ STRONG_HANDS ## SPECULATIVE_HANDS.
Proof.
  split.
  - assert (Hb : bool_decide (upper (canonical_label c1 c2) ∈ PREMIUM_HANDS)
                 = bool_decide
                     ((rank c1 = rank c2
                       /\ (rank c1 = ACE \/ rank c1 = KING \/ rank c1 = QUEEN))
                      \/ (rank c1 = ACE /\ rank c2 = KING)
                      \/ (rank c1 = KING /\ rank c2 = ACE))).
    { destruct c1 as [[] []], c2 as [[] []]; vm_compute; reflexivity. }
    split; intros H.
    + apply (bool_decide_eq_true_2 _) in H. rewrite Hb in H.
      by apply bool_decide_eq_true_1 in H.
    + apply (bool_decide_eq_true_2 _) in H. rewrite <- Hb in H.
      by apply bool_decide_eq_true_1 in H.
  - repeat split; apply (bool_decide_unpack _); vm_compute; exact I.
Qed.
(** ** Case-insensitive combo labels *)







Section StripMap.
Variable f : ascii -> ascii.
Hypothesis f_space : forall c, is_py_space (f c) = is_py_space c.




End StripMap.

(** ** Hand evaluator wrapper and deck *)

Section EvaluatorExact.
Context {HR : HandRankOracle}.


End EvaluatorExact.

(** X15.  [create_deck] returns, for exclusions without repetition, the
    cards of the 52-card deck that are not excluded, each exactly once,
    so 52 minus the number of exclusions; with nothing excluded it is the
    full deck; an exclusion list with a repeated card is rejected with a
    [ValueError]. *)
Theorem create_deck_spec (exclude_cards : list Card) :
  (NoDup exclude_cards ->
     exists deck,
       create_deck exclude_cards = Ok deck
       /\ NoDup deck
       /\ (forall c, c ∈ deck <-> c ∉ exclude_cards)
       /\ (length deck + length exclude_cards = 52)%nat)
  /\ (~ NoDup exclude_cards ->
        exists msg, create_deck exclude_cards = Err (ValueError msg))
  /\ create_deck [] = Ok full_deck.
Proof.
  split; [|split].
  - intros Hnd. exists (remaining exclude_cards).
    split; [by apply create_deck_ok|]. split; [apply NoDup_remaining|].
    split; [intros c; apply elem_of_remaining|by apply remaining_length].
  - intros Hdup. unfold create_deck, _validate_cards. cbn [rbind].
    destruct (proj2 (ensure_unique_iff exclude_cards "exclude_cards") Hdup) as [msg ->].
    cbn [rbind]. eauto.
  - vm_compute. reflexivity.
Qed.

(** ** Simulator: range of the result for any random source *)

Section EquityRange.
Context {HR : HandRankOracle} {RS : RandomSource}.




End EquityRange.

(** ** Decision engine: sizing and thresholds *)

Lemma value_bet_amount (gs : GameState) :
  (0 <= pot_size gs)%Q -> pymax (pot_size gs * 0.6) (pot_size gs * 0.5) = (pot_size gs * 0.6)%Q.
Proof.
  intros Hp. unfold pymax.
  assert (H : Qltb (pot_size gs * 0.6) (pot_size gs * 0.5) = false) by (apply Qltb_false; lra).
  by rewrite H.
Qed.

(** X17.  On a validated state every sizing helper returns an amount
    between 0 and the hero's stack; the inferred big blind is at least 1;
    and the value bet is 60% of the pot capped at the stack (the 50%
    alternative never wins the maximum). *)
Theorem sizing_within_stack (gs : GameState) :
  valid_state gs ->
  (0 <= _suggest_open_raise gs <= your_stack gs)%Q
  /\ (0 <= _suggest_3bet_size gs <= your_stack gs)%Q
  /\ (0 <= _suggest_value_bet gs <= your_stack gs)%Q
  /\ (0 <= _suggest_small_bet gs <= your_stack gs)%Q
  /\ (0 <= _suggest_raise_size gs <= your_stack gs)%Q
  /\ (1 <= _infer_big_blind gs)%Q
  /\ _suggest_value_bet gs = pymin (pot_size gs * 0.6)%Q (your_stack gs).
Proof.
  intros Hv. apply valid_state_facts in Hv.
  pose proof Hv as [_ _ _ Hp Hb Hs _ _ _].
  split; [by apply suggest_open_raise_bounds|].
  split; [split; [by apply suggest_3bet_nonneg|apply pymin_le_r]|].
  split; [split; [by apply suggest_value_bet_nonneg|apply pymin_le_r]|].
  split.
  { unfold _suggest_small_bet. destruct (Qltb 0 (pot_size gs * 0.4)) eqn:E.
    - apply Qltb_true in E. split; [apply pymin_glb; lra|apply pymin_le_r].
    - split; [lra|exact Hs]. }
  split; [split; [by apply suggest_raise_size_nonneg|apply pymin_le_r]|].
  split.
  { unfold _infer_big_blind. destruct (Qltb 0 (pot_size gs)); [apply pymax_ge_l|lra]. }
  unfold _suggest_value_bet. by rewrite value_bet_amount.
Qed.

Lemma sizing_within_stack_witness :
  (0 <= _suggest_open_raise Sample.deep_river <= your_stack Sample.deep_river)%Q
  /\ (0 <= _suggest_3bet_size Sample.deep_river <= your_stack Sample.deep_river)%Q
  /\ (0 <= _suggest_value_bet Sample.deep_river <= your_stack Sample.deep_river)%Q
  /\ (0 <= _suggest_small_bet Sample.deep_river <= your_stack Sample.deep_river)%Q
  /\ (0 <= _suggest_raise_size Sample.deep_river <= your_stack Sample.deep_river)%Q
  /\ (1 <= _infer_big_blind Sample.deep_river)%Q
  /\ _suggest_value_bet Sample.deep_river
     = pymin (pot_size Sample.deep_river * 0.6)%Q (your_stack Sample.deep_river).
Proof. apply (sizing_within_stack Sample.deep_river). vm_compute. reflexivity. Defined.

(** X18.  The multiway adjustment is zero with at most one opponent,
    0.05 per opponent beyond the first otherwise, and never decreases as
    opponents are added. *)
Theorem multiway_adjustment_steps (a b : Z) :
  (a <= 1 -> (_multiway_adjustment a == 0)%Q)
  /\ (1 <= a -> (_multiway_adjustment a == 0.05 * inject_Z (a - 1))%Q)
  /\ (a <= b -> (_multiway_adjustment a <= _multiway_adjustment b)%Q).
Proof.
  unfold _multiway_adjustment. rewrite !zmax_spec. repeat split.
  - intros Ha. replace (Z.max 0 (a - 1)) with 0 by lia. reflexivity.
  - intros Ha. replace (Z.max 0 (a - 1)) with (a - 1) by lia. ring.
  - intros Hab.
    assert (H : (inject_Z (Z.max 0 (a - 1)) <= inject_Z (Z.max 0 (b - 1)))%Q)
      by (rewrite <- Zle_Qle; lia).
    lra.
Qed.

Section EngineBranches.
Context {HR : HandRankOracle} {RS : RandomSource}.

Lemma recommend_action_preflop (self : Engine) (gs : GameState) (s s' : rng_state)
      (r : DecisionResult) :
  length (hole_cards gs) = 2%nat -> street gs = PREFLOP ->
  _recommend_preflop self gs s = (Ok r, s') ->
  recommend_action self gs s = (Ok (action r, amount r, reasoning r), s').
Proof.
  intros Hlen Hst Hr. unfold recommend_action. rewrite Hlen. cbn [Nat.eqb negb].
  rewrite bool_decide_eq_true_2 by exact Hst. unfold bind, ret. by rewrite Hr.
Qed.

(** X19.  Before the flop with no bet to call the engine decides from
    the opening range alone: it raises min(2.7 * inferred big blind,
    stack) when the hand is in the position's opening range and folds
    with amount 0 otherwise, and the random source is left untouched (no
    simulation runs). *)
Theorem preflop_unopened_decision (self : Engine) (gs : GameState) (s : rng_state)
        (c1 c2 : Card) :
  valid_state gs ->
  hole_cards gs = [c1; c2] ->
  street gs = PREFLOP ->
  (bet_to_call gs == 0)%Q ->
  exists (opens : bool) (rs : list line),
    should_open (canonical_label c1 c2) (your_position gs) = Ok opens
    /\ recommend_action self gs s
       = (Ok (if opens then RAISE else FOLD,
              if opens then pymin (2.7 * _infer_big_blind gs)%Q (your_stack gs) else 0%Q,
              rs), s).
Proof.
  intros Hv Hhole Hst Hbet. apply valid_state_facts in Hv.
  destruct (should_open_total c1 c2 (your_position gs)) as [opens Ho].
  assert (Hlen : length (hole_cards gs) = 2%nat) by (by rewrite Hhole).
  assert (Hpre : exists rs,
             _recommend_preflop self gs s
             = (Ok (mkDecision (if opens then RAISE else FOLD)
                      (if opens then _suggest_open_raise gs else 0%Q) rs), s)).
  { unfold _recommend_preflop. rewrite Hhole.
    unfold bind at 1. unfold lift at 1. rewrite normalize_hand_label.
    unfold bind at 1. rewrite (calculate_pot_odds_valid gs Hv).
    assert (Hpo : (if Qltb 0 (bet_to_call gs) then lift (Ok (pot_odds gs)) else ret 0%Q) s
                  = (Ok (if Qltb 0 (bet_to_call gs) then pot_odds gs else 0%Q), s)).
    { by destruct (Qltb 0 (bet_to_call gs)). }
    rewrite Hpo. clear Hpo.
    rewrite (proj2 (Qeqb_true _ _) Hbet).
    unfold bind, lift, ret. rewrite Ho. destruct opens; eauto. }
  destruct Hpre as [rs Hpre].
  exists opens, rs. split; [exact Ho|].
  rewrite (recommend_action_preflop self gs s s _ Hlen Hst Hpre).
  cbn [action amount reasoning]. unfold _suggest_open_raise. reflexivity.
Qed.

End EngineBranches.

Lemma preflop_unopened_decision_witness :
  exists (opens : bool) (rs : list line),
    should_open (canonical_label (Sample.card SEVEN CLUBS) (Sample.card TWO DIAMONDS))
                (your_position Sample.short_stack_open) = Ok opens
    /\ recommend_action (HR:=Sample.reference_oracle) (RS:=Sample.cutting_source)
         Sample.engine3 Sample.short_stack_open (7 : Z)
       = (Ok (if opens then RAISE else FOLD,
              if opens
              then pymin (2.7 * _infer_big_blind Sample.short_stack_open)%Q
                         (your_stack Sample.short_stack_open)
              else 0%Q,
              rs), (7 : Z)).
Proof.
  apply (preflop_unopened_decision (HR:=Sample.reference_oracle)
           (RS:=Sample.cutting_source)).
  - vm_compute. reflexivity.
  - reflexivity.
  - reflexivity.
  - reflexivity.
Defined.


Section EngineCheckedTo.
Context {HR : HandRankOracle} {RS : RandomSource}.



End EngineCheckedTo.


Section EngineNever.
Context {HR : HandRankOracle} {RS : RandomSource}.



End EngineNever.


(** ** Parsing ranks and normalising arbitrary card text *)

Lemma Card_from_string_Card_str (c : Card) : Card_from_string (Card_str c) = Ok c.
Proof. destruct c as [[] []]; vm_compute; reflexivity. Qed.

(** X24.  [normalize_hand] is [Card.from_string] on both texts followed
    by the canonical label of the two cards: when both texts parse, the
    result is the label of the parsed cards, and that label is one that
    the range lookup accepts unchanged; when a text does not parse, the
    failure is a [ValueError]. *)
Theorem normalize_hand_of_text (s1 s2 : string) :
  (forall c1 c2,
      Card_from_string s1 = Ok c1 -> Card_from_string s2 = Ok c2 ->
      normalize_hand s1 s2 = Ok (canonical_label c1 c2)
      /\ _normalize_combo_literal (canonical_label c1 c2) = Ok (canonical_label c1 c2))
  /\ (forall e, normalize_hand s1 s2 = Err e ->
        (exists msg, e = ValueError msg)
        /\ (Card_from_string s1 = Err e \/ Card_from_string s2 = Err e)).
Proof.
  split.
  - intros c1 c2 H1 H2. split; [|apply normalize_combo_literal_label].
    rewrite <- (normalize_hand_label c1 c2).
    unfold normalize_hand. by rewrite H1, H2, !Card_from_string_Card_str.
  - intros e. unfold normalize_hand.
    destruct (Card_from_string s1) as [c1|e1] eqn:E1; cbn [rbind].
    + destruct (Card_from_string s2) as [c2|e2] eqn:E2; cbn [rbind].
      * destruct (String.eqb _ _); [discriminate|].
        destruct (sorted_desc_by_rank c1 c2). discriminate.
      * intros [= <-]. split; [|by right].
        clear E1. revert E2. generalize e2. apply card_parse_errors.
    + intros [= <-]. split; [|by left].
      revert E1. generalize e1. apply card_parse_errors.
Qed.

(** X25.  [Rank.from_string] also reads a rank from its number: a text
    whose stripped, upper-cased form is the decimal numeral of n yields
    the rank of value n when 2 <= n <= 14 (so "10" is the ten and "14"
    the ace) and a [ValueError] otherwise. *)
Theorem rank_from_number (value : string) (n : Z) :
  int (upper (strip value)) = Some n ->
  (2 <= n <= 14 -> exists r, Rank_from_string value = Ok r /\ rank_value r = n)
  /\ (~ 2 <= n <= 14 -> exists msg, Rank_from_string value = Err (ValueError msg)).
Proof.
  intros Hint.
  assert (Hval : forall r, rank_of_value n = Some r -> rank_value r = n).
  { intros r Hr. unfold rank_of_value in Hr. apply find_some in Hr as [_ Hr].
    by apply Z.eqb_eq in Hr. }
  assert (Hrange : 2 <= n <= 14 <-> exists r, rank_of_value n = Some r).
  { split.
    - intros Hn.
      assert (Hc : n = 2 \/ n = 3 \/ n = 4 \/ n = 5 \/ n = 6 \/ n = 7 \/ n = 8 \/ n = 9
                   \/ n = 10 \/ n = 11 \/ n = 12 \/ n = 13 \/ n = 14) by lia.
      repeat (destruct Hc as [-> |Hc]; [eexists; reflexivity|]). subst. eexists; reflexivity.
    - intros [r Hr]. apply Hval in Hr. subst n. destruct r; cbn; lia. }
  unfold Rank_from_string.
  destruct (String.eqb (upper (strip value)) "") eqn:Eempty.
  { apply String.eqb_eq in Eempty. rewrite Eempty in Hint. discriminate. }
  destruct (List.find _ all_ranks) as [r'|] eqn:Efind.
  - apply find_some in Efind as [_ Hd]. apply String.eqb_eq in Hd.
    rewrite <- Hd in Hint.
    assert (Hr' : rank_value r' = n).
    { destruct r'; vm_compute in Hint; first [discriminate | by injection Hint as <-]. }
    split.
    + intros _. eauto.
    + intros Hbad. exfalso. apply Hbad. subst n. destruct r'; cbn; lia.
  - rewrite Hint. destruct (rank_of_value n) as [r|] eqn:Er.
    + split; [intros _; eauto|]. intros Hbad. exfalso. apply Hbad, Hrange. eauto.
    + split; [|eauto]. intros Hn. apply Hrange in Hn as [r Hr]. congruence.
Qed.

Lemma rank_from_number_witness :
  (2 <= 10 <= 14 -> exists r, Rank_from_string "10" = Ok r /\ rank_value r = 10)
  /\ (~ 2 <= 10 <= 14 -> exists msg, Rank_from_string "10" = Err (ValueError msg)).
Proof. apply (rank_from_number "10" 10). vm_compute. reflexivity. Defined.
